(** * Audio transcriber with AI chat: the transcription fallback, the upload
      validation and the chat-history handling of [transcribe_app.py], and the
      request handling of the command-line script [Transcribe.py].

    The Python code is embedded shallowly.  Python [str] values are lists of
    Unicode code points, JSON bodies are a tagged union with Python's dynamic
    operations on them written out ([.get], subscripting, truthiness,
    [.strip()]), exceptions are values of a result type, and the Streamlit
    script is a state-passing program over the session state and a log of the
    observable calls (HTTP posts, language-model invocations, UI messages). *)

From Stdlib Require Import List String Ascii ZArith NArith Bool Lia.
From Stdlib Require Import Floats.SpecFloat.
From Stdlib Require DecimalString.
Import ListNotations.

Local Open Scope N_scope.

(* ================================================================== *)
(** ** Python strings *)
(* ================================================================== *)

Module PyStr.

(** A Python [str] is a sequence of Unicode code points. *)
Definition char := N.
Definition str := list char.

(** Literals of the source are written as Rocq strings, which hold the UTF-8
    bytes of the text; [decode] turns the bytes into code points. *)
Fixpoint decode (bs : list N) : str :=
  match bs with
  | [] => []
  | b1 :: r1 =>
    if b1 <? 0xC0 then b1 :: decode r1
    else match r1 with
    | [] => [b1]
    | b2 :: r2 =>
      if b1 <? 0xE0 then
        N.lor (N.shiftl (N.land b1 0x1F) 6) (N.land b2 0x3F) :: decode r2
      else match r2 with
      | [] => [b1; b2]
      | b3 :: r3 =>
        if b1 <? 0xF0 then
          N.lor (N.shiftl (N.land b1 0x0F) 12)
            (N.lor (N.shiftl (N.land b2 0x3F) 6) (N.land b3 0x3F)) :: decode r3
        else match r3 with
        | [] => [b1; b2; b3]
        | b4 :: r4 =>
          N.lor (N.shiftl (N.land b1 0x07) 18)
            (N.lor (N.shiftl (N.land b2 0x3F) 12)
               (N.lor (N.shiftl (N.land b3 0x3F) 6) (N.land b4 0x3F))) :: decode r4
        end
      end
    end
  end.

Definition lit (s : string) : str :=
  decode (map N_of_ascii (list_ascii_of_string s)).

Definition char_eqb (a b : char) : bool := N.eqb a b.

Fixpoint eqb (s t : str) : bool :=
  match s, t with
  | [], [] => true
  | a :: s', b :: t' => char_eqb a b && eqb s' t'
  | _, _ => false
  end.

(** [x in xs] for a list of strings. *)
Definition mem (x : str) (xs : list str) : bool := existsb (eqb x) xs.

(** [str.isspace] on one code point: the characters [str.strip()] removes. *)
Definition isspace (c : char) : bool :=
  ((0x09 <=? c) && (c <=? 0x0D)) || ((0x1C <=? c) && (c <=? 0x20))
  || (c =? 0x85) || (c =? 0xA0) || (c =? 0x1680)
  || ((0x2000 <=? c) && (c <=? 0x200A))
  || (c =? 0x2028) || (c =? 0x2029) || (c =? 0x202F) || (c =? 0x205F)
  || (c =? 0x3000).

Fixpoint lstrip (s : str) : str :=
  match s with
  | [] => []
  | c :: r => if isspace c then lstrip r else s
  end.

Definition rstrip (s : str) : str := rev (lstrip (rev s)).

(** [s.strip()] *)
Definition strip (s : str) : str := rstrip (lstrip s).

(** [s.lower()].  ASCII capitals are mapped to small letters.  Of all other
    code points only two have a lower-case form that contains an ASCII
    character (U+212A KELVIN SIGN and U+0130); they are mapped as Python
    maps them.  Every other code point is left as it is: its lower-case form
    is not ASCII, so tests against ASCII texts are not affected. *)
Definition lower_char (c : char) : str :=
  if (0x41 <=? c) && (c <=? 0x5A) then [c + 0x20]
  else if c =? 0x212A then [0x6B]
  else if c =? 0x0130 then [0x69; 0x0307]
  else [c].

Definition lower (s : str) : str := flat_map lower_char s.

Fixpoint startswith (p s : str) : bool :=
  match p, s with
  | [], _ => true
  | a :: p', b :: s' => char_eqb a b && startswith p' s'
  | _ :: _, [] => false
  end.

(** [p in s] for strings: substring test. *)
Fixpoint contains (p s : str) : bool :=
  startswith p s ||
  match s with
  | [] => false
  | _ :: s' => contains p s'
  end.

(** [str(n)] for an [int]. *)
Definition of_Z (z : Z) : str :=
  map N_of_ascii
    (list_ascii_of_string (DecimalString.NilZero.string_of_int (Z.to_int z))).

(** [os.path.splitext(p)[1]] (posixpath): the extension starts at the last
    dot of the last path component, leading dots of the component apart. *)
Definition dot : char := 0x2E.
Definition sep : char := 0x2F.

(** The last path component: what follows the last [sep]. *)
Fixpoint basename_acc (s acc : str) : str :=
  match s with
  | [] => rev acc
  | c :: r => if char_eqb c sep then basename_acc r [] else basename_acc r (c :: acc)
  end.
Definition basename (p : str) : str := basename_acc p [].

(** What follows the last dot of [s], the dot included; [None] without a dot. *)
Fixpoint from_last_dot (s : str) : option str :=
  match s with
  | [] => None
  | c :: r =>
    match from_last_dot r with
    | Some e => Some e
    | None => if char_eqb c dot then Some s else None
    end
  end.

Definition splitext_ext (p : str) : str :=
  let name := basename p in
  match from_last_dot name with
  | None => []
  | Some e =>
    (* the dot counts only when a character other than a dot precedes it *)
    let before := firstn (List.length name - List.length e) name in
    if forallb (fun c => char_eqb c dot) before then [] else e
  end.

End PyStr.

Import PyStr.

(* ================================================================== *)
(** ** Python values, exceptions and the dynamic operations on JSON *)
(* ================================================================== *)

(** What [response.json()] returns: dict, list, str, int, float, bool, None.
    A dict is kept as its list of items; [dict_lookup] takes the first item
    with the key. *)
#[warnings="-register-all"]
Inductive Json : Type :=
| JNone
| JBool (b : bool)
| JInt (z : Z)
| JFloat (f : spec_float)
| JStr (s : str)
| JList (items : list Json)
| JDict (items : list (str * Json)).

Inductive PyType := TNone | TBool | TInt | TFloat | TStr | TList | TDict.

Definition type_of (v : Json) : PyType :=
  match v with
  | JNone => TNone | JBool _ => TBool | JInt _ => TInt | JFloat _ => TFloat
  | JStr _ => TStr | JList _ => TList | JDict _ => TDict
  end.

(** The exceptions of the model, all of them subclasses of [Exception].
    [Raised] stands for what the libraries raise (connection errors, timeouts,
    JSON decoding errors, language-model client errors), with its text. *)
Inductive PyExc : Type :=
| KeyError (key : Json)
| IndexError (ty : PyType)
| TypeError (ty : PyType)              (* the operation is not supported *)
| AttributeError (ty : PyType) (attr : str)
| HTTPError (status : Z)               (* [raise_for_status] *)
| Raised (description : str).

Definition is_KeyError (e : PyExc) : bool :=
  match e with KeyError _ => true | _ => false end.

(** A computation that returns or raises. *)
Inductive PyResult (A : Type) : Type :=
| Ret (a : A)
| Exc (e : PyExc).
Arguments Ret {A} a.
Arguments Exc {A} e.

Definition py_bind {A B} (m : PyResult A) (k : A -> PyResult B) : PyResult B :=
  match m with
  | Ret a => k a
  | Exc e => Exc e
  end.

(** [bool(v)] *)
Definition truthy (v : Json) : bool :=
  match v with
  | JNone => false
  | JBool b => b
  | JInt z => negb (Z.eqb z 0)
  | JFloat f => match f with S754_zero _ => false | _ => true end
  | JStr s => match s with [] => false | _ => true end
  | JList l => match l with [] => false | _ => true end
  | JDict d => match d with [] => false | _ => true end
  end.

Fixpoint dict_lookup (k : str) (d : list (str * Json)) : option Json :=
  match d with
  | [] => None
  | (k', v) :: d' => if PyStr.eqb k k' then Some v else dict_lookup k d'
  end.

(** [v.get(k, default)]: only a dict has [get]. *)
Definition py_get (v : Json) (k : str) (default : Json) : PyResult Json :=
  match v with
  | JDict d =>
    match dict_lookup k d with
    | Some x => Ret x
    | None => Ret default
    end
  | _ => Exc (AttributeError (type_of v) (lit "get"))
  end.

(** [v[k]] with a string key. *)
Definition py_getitem_key (v : Json) (k : str) : PyResult Json :=
  match v with
  | JDict d =>
    match dict_lookup k d with
    | Some x => Ret x
    | None => Exc (KeyError (JStr k))
    end
  | _ => Exc (TypeError (type_of v))
  end.

(** [v[0]] *)
Definition py_getitem_0 (v : Json) : PyResult Json :=
  match v with
  | JList l =>
    match l with
    | x :: _ => Ret x
    | [] => Exc (IndexError TList)
    end
  | JStr s =>
    match s with
    | c :: _ => Ret (JStr [c])
    | [] => Exc (IndexError TStr)
    end
  | JDict _ => Exc (KeyError (JInt 0))
  | _ => Exc (TypeError (type_of v))
  end.

(** [v.strip()]: only a str has [strip]. *)
Definition py_strip (v : Json) : PyResult str :=
  match v with
  | JStr s => Ret (strip s)
  | _ => Exc (AttributeError (type_of v) (lit "strip"))
  end.

(* ================================================================== *)
(** ** HTTP requests and responses *)
(* ================================================================== *)

Definition bytes := list N.

(** How [requests.post] is given the audio: [files=] or [data=]. *)
Inductive Body :=
| Files (field filename : str) (content : bytes) (content_type : str)
| Data (content : bytes).

Record Request := {
  req_url : str;
  req_headers : list (str * str);
  req_params : list (str * str);
  req_body : Body;
  req_timeout : option Z      (* seconds; [None] when not given *)
}.

(** [json] is the outcome of [response.json()]. *)
Record Response := {
  status_code : Z;
  text : str;
  json : PyResult Json
}.

(** [response.raise_for_status()] *)
Definition raise_for_status (r : Response) : PyResult unit :=
  if ((400 <=? status_code r) && (status_code r <? 600))%Z
  then Exc (HTTPError (status_code r))
  else Ret tt.

(** The file object of [st.file_uploader]; [type] may be [None]. *)
Record UploadedFile := {
  name : str;
  type : option str;
  getvalue : bytes
}.

(** [audio_file.type or default] *)
Definition type_or (f : UploadedFile) (default : str) : str :=
  match type f with
  | Some (c :: t) => c :: t
  | _ => default
  end.

(* ================================================================== *)
(** ** The session, the observable calls and the script monad *)
(* ================================================================== *)

(** langchain messages; [msg_type] is their [type] attribute. *)
Inductive Message :=
| SystemMessage (content : str)
| HumanMessage (content : str)
| AIMessage (content : str).

Definition content (m : Message) : str :=
  match m with SystemMessage c | HumanMessage c | AIMessage c => c end.

Definition msg_type (m : Message) : str :=
  match m with
  | SystemMessage _ => lit "system"
  | HumanMessage _ => lit "human"
  | AIMessage _ => lit "ai"
  end.

(** [isinstance(m, HumanMessage)] *)
Definition is_HumanMessage (m : Message) : bool :=
  match m with HumanMessage _ => true | _ => false end.

(** [st.session_state]: [history] is set at the top of every run, the other
    two keys may be absent. *)
Record Session := {
  history : list Message;
  transcript : option str;
  last_uploaded_file : option str
}.

(** The calls a run makes that can be observed from outside, in order:
    requests, language-model invocations and the messages shown.  The page
    decoration (titles, captions, progress bar, spinner, download buttons)
    is not logged. *)
Inductive Event :=
| HttpPost (req : Request)                  (* requests.post *)
| LlmInvoke (messages : list Message)       (* llm.invoke *)
| StError (msg : str)
| StWarning (msg : str)
| StSuccess (msg : str)
| StInfo (msg : str)
| StWrite (msg : str)
| StatusText (msg : str)                    (* status_text.text *)
| ChatMessage (role : str) (msg : str)      (* st.chat_message + markdown *)
| Print (args : list Json).                 (* print, command-line script *)

Record World := {
  session : Session;
  log : list Event
}.

(** What lies outside the program: the credential, the provider behind
    [requests.post], the language-model client and [str(e)]. *)
Record Env := {
  DEEPGRAM_API_KEY : str;
  requests_post : Request -> PyResult Response;
  ChatGoogleGenerativeAI : PyResult unit;               (* the constructor *)
  llm_invoke : list Message -> PyResult str;            (* [.content] of the reply *)
  exc_str : PyExc -> str
}.

Definition St (A : Type) : Type := World -> A * World.

Definition ret {A} (a : A) : St A := fun w => (a, w).

Definition bind {A B} (m : St A) (k : A -> St B) : St B :=
  fun w => let (a, w') := m w in k a w'.

Declare Scope st_scope.
Delimit Scope st_scope with st.
Notation "x <- m ;; k" := (bind m (fun x => k))
  (at level 61, m at next level, right associativity) : st_scope.
Notation "m ;; k" := (bind m (fun _ => k))
  (at level 61, right associativity) : st_scope.
Notation "x <~ m ;; k" := (py_bind m (fun x => k))
  (at level 61, m at next level, right associativity).

Definition emit (e : Event) : St unit :=
  fun w => (tt, {| session := session w; log := log w ++ [e] |}).

Definition get_session : St Session := fun w => (session w, w).

Definition put_session (s : Session) : St unit :=
  fun w => (tt, {| session := s; log := log w |}).

Definition set_history (h : list Message) : St unit :=
  fun w => (tt, {| session := {| history := h;
                                 transcript := transcript (session w);
                                 last_uploaded_file := last_uploaded_file (session w) |};
                   log := log w |}).

(** The world after a computation, and its result. *)
Definition exec {A} (m : St A) (w : World) : World := snd (m w).
Definition eval {A} (m : St A) (w : World) : A := fst (m w).

(** The world [w] after the events [l]. *)
Definition logged (w : World) (l : list Event) : World :=
  {| session := session w; log := log w ++ l |}.

(** How a run of the script ends: at its last line, or at [st.stop()]. *)
Inductive RunEnd := Completed | Stopped.

Definition posts (l : list Event) : list Request :=
  flat_map (fun e => match e with HttpPost r => [r] | _ => [] end) l.

Definition errors (l : list Event) : list str :=
  flat_map (fun e => match e with StError m => [m] | _ => [] end) l.

Definition warnings (l : list Event) : list str :=
  flat_map (fun e => match e with StWarning m => [m] | _ => [] end) l.

Definition llm_calls (l : list Event) : list (list Message) :=
  flat_map (fun e => match e with LlmInvoke m => [m] | _ => [] end) l.

Definition is_Files (b : Body) : bool :=
  match b with Files _ _ _ _ => true | Data _ => false end.

(* ================================================================== *)
(** ** transcribe_app.py: the two transcription attempts *)
(* ================================================================== *)

Section App.

Variable env : Env.

Local Open Scope st_scope.

(** [requests.post(...)]: the call is observable, its outcome is the
    provider's. *)
Definition post (req : Request) : St (PyResult Response) :=
  emit (HttpPost req) ;; ret (requests_post env req).

Definition listen_url : str := lit "https://api.deepgram.com/v1/listen".

Definition authorization : str * str :=
  (lit "Authorization", lit "Token " ++ DEEPGRAM_API_KEY env).

Definition primary_params : list (str * str) :=
  [ (lit "detect_language", lit "true");
    (lit "punctuate", lit "true");
    (lit "model", lit "nova-2");
    (lit "smart_format", lit "true");
    (lit "diarize", lit "false") ].

Definition primary_request (audio_file : UploadedFile) : Request :=
  {| req_url := listen_url;
     req_headers := [authorization];
     req_params := primary_params;
     req_body := Files (lit "audio") (name audio_file) (getvalue audio_file)
                   (type_or audio_file (lit "audio/mpeg"));
     req_timeout := Some 120%Z |}.

(** Lines 76 to 95: what the primary method makes of the response. *)
Definition primary_read (response : Response) : PyResult (option str) :=
  if negb (status_code response =? 200)%Z then Ret None else
  result <~ json response ;;
  results <~ py_get result (lit "results") (JDict []) ;;
  channels <~ py_get results (lit "channels") JNone ;;
  if negb (truthy channels) then Ret None else
  results' <~ py_getitem_key result (lit "results") ;;
  channels' <~ py_getitem_key results' (lit "channels") ;;
  channel0 <~ py_getitem_0 channels' ;;
  alternatives <~ py_get channel0 (lit "alternatives") (JList []) ;;
  if negb (truthy alternatives) then Ret None else
  alternative0 <~ py_getitem_0 alternatives ;;
  transcript <~ py_get alternative0 (lit "transcript") (JStr []) ;;
  stripped <~ py_strip transcript ;;
  if negb (truthy (JStr stripped)) then Ret None else
  stripped' <~ py_strip transcript ;;
  Ret (Some stripped').

(** The [try] block around the request and the reading of its response:
    [except Exception: return None]. *)
Definition primary_result (outcome : PyResult Response) : option str :=
  match (response <~ outcome ;; primary_read response) with
  | Ret transcript => transcript
  | Exc _ => None
  end.

Definition transcribe_audio_primary (audio_file : UploadedFile) : St (option str) :=
  outcome <- post (primary_request audio_file) ;;
  ret (primary_result outcome).

Definition alternative_params : list (str * str) :=
  [ (lit "detect_language", lit "true");
    (lit "punctuate", lit "true");
    (lit "model", lit "nova-2");
    (lit "smart_format", lit "true") ].

Definition alternative_request (audio_file : UploadedFile) : Request :=
  {| req_url := listen_url;
     req_headers := [authorization;
                     (lit "Content-Type", type_or audio_file (lit "audio/mpeg"))];
     req_params := alternative_params;
     req_body := Data (getvalue audio_file);
     req_timeout := Some 120%Z |}.

(** [result["results"]["channels"][0]["alternatives"][0]["transcript"]] *)
Definition strict_transcript (result : Json) : PyResult Json :=
  results <~ py_getitem_key result (lit "results") ;;
  channels <~ py_getitem_key results (lit "channels") ;;
  channel0 <~ py_getitem_0 channels ;;
  alternatives <~ py_getitem_key channel0 (lit "alternatives") ;;
  alternative0 <~ py_getitem_0 alternatives ;;
  py_getitem_key alternative0 (lit "transcript").

Definition api_error_message (response : Response) : str :=
  lit "❌ Transcription failed - API Error " ++ of_Z (status_code response)
  ++ lit ": " ++ text response.

Definition empty_warning : str :=
  lit "⚠️ Transcription is empty. Audio might be too quiet or unclear.".

Definition transcription_error_message (e : PyExc) : str :=
  lit "❌ Transcription error: " ++ exc_str env e.

(** Lines 126 to 141: what the alternative method makes of the outcome of
    its request. *)
Definition alternative_result (outcome : PyResult Response) : St (option str) :=
  match outcome with
  | Exc e => emit (StError (transcription_error_message e)) ;; ret None
  | Ret response =>
    if negb (status_code response =? 200)%Z then
      emit (StError (api_error_message response)) ;; ret None
    else
      match (result <~ json response ;;
             transcript <~ strict_transcript result ;;
             py_strip transcript) with
      | Exc e => emit (StError (transcription_error_message e)) ;; ret None
      | Ret stripped =>
        if negb (truthy (JStr stripped)) then
          emit (StWarning empty_warning) ;; ret None
        else ret (Some stripped)
      end
  end.

Definition transcribe_audio_alternative (audio_file : UploadedFile) : St (option str) :=
  outcome <- post (alternative_request audio_file) ;;
  alternative_result outcome.

(* ================================================================== *)
(** ** transcribe_app.py: upload validation *)
(* ================================================================== *)

Definition nl : str := [10].

(** [sep.join(xs)] *)
Fixpoint join (sep : str) (xs : list str) : str :=
  match xs with
  | [] => []
  | [x] => x
  | x :: r => x ++ sep ++ join sep r
  end.

Definition lines (xs : list str) : str := join nl xs.

(** [f"{size / (1024 * 1024):.1f}"] for a size in bytes.  The quotient by
    2^20 is exact in double precision for sizes below 2^53; the format rounds
    it to one decimal, ties to even. *)
Definition fmt_mb (size : N) : str :=
  let scaled := (10 * size)%N in
  let q := (scaled / 1048576)%N in
  let r := (scaled mod 1048576)%N in
  let tenths := if (524288 <? r)%N || ((r =? 524288)%N && N.odd q)
                then (q + 1)%N else q in
  of_Z (Z.of_N (tenths / 10)) ++ lit "." ++ of_Z (Z.of_N (tenths mod 10)).

Definition size_of (f : UploadedFile) : N := N.of_nat (List.length (getvalue f)).

(** [file_size_mb > 25]: the size in MB is above 25 exactly when the size in
    bytes is above 25 * 2^20. *)
Definition over_25_mb (size : N) : bool := (25 * 1048576 <? size)%N.

Definition allowed_types : list str :=
  [lit "audio/wav"; lit "audio/mpeg"; lit "audio/mp3"; lit "audio/m4a";
   lit "audio/flac"; lit "audio/ogg"].

Definition allowed_extensions : list str :=
  [lit ".wav"; lit ".mp3"; lit ".m4a"; lit ".flac"; lit ".ogg"].

(** [audio_file.type in allowed_types]; [None] is in no list of strings. *)
Definition type_allowed (f : UploadedFile) : bool :=
  match type f with
  | Some t => mem t allowed_types
  | None => false
  end.

Definition extension_allowed (f : UploadedFile) : bool :=
  mem (lower (splitext_ext (name f))) allowed_extensions.

Definition validate_audio_file (audio_file : option UploadedFile) : bool * str :=
  match audio_file with
  | None => (false, lit "No file uploaded")
  | Some f =>
    let size := size_of f in
    if over_25_mb size then
      (false, lit "File too large (" ++ fmt_mb size ++ lit " MB). Maximum size is 25MB.")
    else if negb (type_allowed f) && negb (extension_allowed f) then
      (false, lit "Unsupported file type. Supported formats: "
              ++ join (lit ", ") allowed_extensions)
    else
      (true, lit "Valid file: " ++ name f ++ lit " (" ++ fmt_mb size ++ lit " MB)")
  end.

(* ================================================================== *)
(** ** transcribe_app.py: the transcription flow of a run *)
(* ================================================================== *)

Definition initial_system_message : Message :=
  SystemMessage (lit "You are a helpful AI assistant. Answer user questions based on the provided transcription. Keep the conversation flowing naturally.").

(** The session of a fresh run (lines 39 to 42). *)
Definition initial_session : Session :=
  {| history := [initial_system_message];
     transcript := None;
     last_uploaded_file := None |}.

Definition context_msg (transcript : str) : Message :=
  SystemMessage (lines
    [ lit "You are a helpful AI assistant. Answer user questions based on the provided audio transcription. Keep the conversation flowing naturally and refer to the transcription content when relevant.";
      [];
      lit "AUDIO TRANSCRIPTION:";
      transcript;
      [];
      lit "Instructions:";
      lit "- Use this transcription to answer questions about the audio content";
      lit "- You can discuss topics beyond the transcription if the user asks";
      lit "- Maintain a conversational and helpful tone";
      lit "- Reference specific parts of the transcription when relevant" ]).

(** [if transcript:] for an optional string *)
Definition truthy_opt (t : option str) : bool :=
  match t with
  | Some (_ :: _) => true
  | _ => false
  end.

(** Lines 202 to 212: the primary method, then the alternative one when the
    primary returned [None]. *)
Definition acquire (uploaded_file : UploadedFile) : St (option str) :=
  transcript <- transcribe_audio_primary uploaded_file ;;
  match transcript with
  | None =>
    emit (StatusText (lit "Primary method failed, trying alternative method...")) ;;
    transcribe_audio_alternative uploaded_file
  | Some _ =>
    emit (StatusText (lit "Primary method succeeded!")) ;;
    ret transcript
  end.

(** Lines 189 to 244.  The progress bar and the spinner are not logged. *)
Definition transcription_flow (uploaded_file : UploadedFile) : St unit :=
  emit (StInfo (lit "🎧 Starting transcription process...")) ;;
  emit (StatusText (lit "Sending file to Deepgram...")) ;;
  result <- acquire uploaded_file ;;
  if truthy_opt result then
    match result with
    | Some transcript =>
      put_session {| history := [context_msg transcript];
                     transcript := Some transcript;
                     last_uploaded_file := Some (name uploaded_file) |} ;;
      emit (StatusText (lit "✅ Transcription completed successfully!"))
    | None => ret tt
    end
  else
    emit (StatusText (lit "❌ Transcription failed with both methods.")) ;;
    emit (StError (lit "Unable to transcribe the audio file. Please check:")) ;;
    emit (StWrite (lit "- File contains clear speech")) ;;
    emit (StWrite (lit "- Audio quality is good")) ;;
    emit (StWrite (lit "- File is not corrupted")) ;;
    emit (StWrite (lit "- Your Deepgram API key is valid and has credits")).

(* ================================================================== *)
(** ** transcribe_app.py: the chat handler *)
(* ================================================================== *)

(** [h[-n:]] *)
Definition last_n {A} (n : nat) (h : list A) : list A :=
  skipn (List.length h - n) h.

(** Lines 306 to 311: the history given to the language model. *)
Definition limit_history (history : list Message) : list Message :=
  let limited_history := firstn 1 history in
  if (5 <? List.length history)%nat
  then limited_history ++ last_n 4 history
  else history.

Definition indent : str := lit "                        ".

Definition rate_limit_warning : str :=
  lines
    [ [];
      indent ++ lit "**Solutions:**";
      indent ++ lit "1. **Wait a few minutes** - Free tier has strict rate limits";
      indent ++ lit "2. **Use shorter messages** - Reduce token usage";
      indent ++ lit "3. **Upgrade to paid plan** - Get higher quotas";
      indent ++ lit "4. **Try again later** - Limits reset over time";
      indent;
      indent ++ lit "The free tier allows:";
      indent ++ lit "- 15 requests per minute";
      indent ++ lit "- 1 million tokens per day";
      indent ++ lit "- 1,500 requests per day";
      indent ].

(** [history.pop()] when the history is not empty and ends with a
    [HumanMessage] (lines 345 and 346). *)
Definition pop_human (history : list Message) : list Message :=
  match rev history with
  | m :: before => if is_HumanMessage m then rev before else history
  | [] => history
  end.

(** Lines 324 to 346: the [except Exception as e] clause. *)
Definition chat_except (e : PyExc) : St unit :=
  let error_str := exc_str env e in
  (if contains (lit "429") error_str || contains (lit "quota") (lower error_str) then
     emit (StError (lit "❌ **Gemini API Rate Limit Exceeded**")) ;;
     emit (StWarning rate_limit_warning) ;;
     emit (StInfo (lit "💡 **Tip**: Try asking shorter, more focused questions to stay within limits."))
   else
     emit (StError (lit "❌ Error generating response: " ++ error_str))) ;;
  s <- get_session ;;
  set_history (pop_human (history s)).

(** [llm.invoke(messages)]: the call is observable, its outcome is the
    client's. *)
Definition invoke (messages : list Message) : St (PyResult str) :=
  emit (LlmInvoke messages) ;; ret (llm_invoke env messages).

(** Lines 283 to 346: one chat exchange. *)
Definition chat_turn (prompt : str) : St unit :=
  let user_message := HumanMessage prompt in
  s <- get_session ;;
  set_history (history s ++ [user_message]) ;;
  emit (ChatMessage (lit "user") prompt) ;;
  match ChatGoogleGenerativeAI env with
  | Exc e => chat_except e
  | Ret _ =>
    s <- get_session ;;
    response <- invoke (limit_history (history s)) ;;
    match response with
    | Exc e => chat_except e
    | Ret response_content =>
      let ai_message := AIMessage response_content in
      s <- get_session ;;
      set_history (history s ++ [ai_message]) ;;
      emit (ChatMessage (lit "assistant") response_content)
    end
  end.

(** Lines 276 to 280: the messages after the system message are shown. *)
Fixpoint show_history (messages : list Message) : St unit :=
  match messages with
  | [] => ret tt
  | m :: r => emit (ChatMessage (msg_type m) (content m)) ;; show_history r
  end.

(** Lines 249 to 346.  [prompt] is what [st.chat_input] returns. *)
Definition transcript_and_chat (prompt : option str) : St unit :=
  s <- get_session ;;
  if truthy_opt (transcript s) then
    match transcript s with
    | Some transcript_text =>
      emit (StWrite transcript_text) ;;
      show_history (skipn 1 (history s)) ;;
      if truthy_opt prompt then
        match prompt with
        | Some p => chat_turn p
        | None => ret tt
        end
      else ret tt
    | None => ret tt
    end
  else ret tt.

Definition option_str_eqb (a b : option str) : bool :=
  match a, b with
  | Some x, Some y => PyStr.eqb x y
  | None, None => true
  | _, _ => false
  end.

Definition is_some {A} (o : option A) : bool :=
  match o with Some _ => true | None => false end.

(** Lines 175 to 346: what a run does with the uploaded file and the chat
    input.  The sidebar and the page decoration are left out. *)
Definition run (uploaded_file : option UploadedFile) (prompt : option str) : St RunEnd :=
  match uploaded_file with
  | None => ret Completed
  | Some f =>
    let (is_valid, validation_message) := validate_audio_file (Some f) in
    if negb is_valid then
      emit (StError (lit "❌ " ++ validation_message)) ;;
      ret Stopped                                   (* st.stop() *)
    else
      emit (StSuccess (lit "✅ " ++ validation_message)) ;;
      s <- get_session ;;
      let file_changed := negb (option_str_eqb (last_uploaded_file s) (Some (name f))) in
      let needs_transcription := negb (is_some (transcript s)) || file_changed in
      (if needs_transcription then transcription_flow f else ret tt) ;;
      transcript_and_chat prompt ;;
      ret Completed
  end.

End App.

(* ================================================================== *)
(** ** Transcribe.py: the command-line script, from line 34 on *)
(* ================================================================== *)

Section Cli.

Variable env : Env.

Local Open Scope st_scope.

Definition cli_params : list (str * str) :=
  [ (lit "detect_language", lit "true"); (lit "punctuate", lit "true") ].

(** [guessed] is [mimetypes.guess_type(audio_path)[0]]. *)
Definition cli_request (guessed : option str) (audio_data : bytes) : Request :=
  {| req_url := listen_url;
     req_headers := [authorization env;
                     (lit "Content-Type",
                      match guessed with
                      | Some (c :: t) => c :: t
                      | _ => lit "audio/mpeg"
                      end)];
     req_params := cli_params;
     req_body := Data audio_data;
     req_timeout := None |}.

Definition deepgram_error_message (response : Response) : str :=
  nl ++ lit "❌ Deepgram Error " ++ of_Z (status_code response)
  ++ lit ": " ++ text response.

(** Lines 60 to 66: [except KeyError] catches nothing else. *)
Definition cli_show (result : Json) : St (PyResult unit) :=
  match strict_transcript result with
  | Ret transcript =>
    emit (Print [JStr (nl ++ lit "📜 Transcription Result")]) ;;
    emit (Print [JStr (lit "--------------------------------------------------")]) ;;
    emit (Print [if truthy transcript then transcript
                 else JStr (lit "⚠️ No speech detected in audio.")]) ;;
    ret (Ret tt)
  | Exc e =>
    if is_KeyError e then
      emit (Print [JStr (lit "❌ Unexpected response format from Deepgram:"); result]) ;;
      ret (Ret tt)
    else ret (Exc e)
  end.

(** Lines 34 to 66.  An exception that leaves the script is its result. *)
Definition cli_main (guessed : option str) (audio_data : bytes) : St (PyResult unit) :=
  outcome <- post env (cli_request guessed audio_data) ;;
  match outcome with
  | Exc e => ret (Exc e)
  | Ret response =>
    raised <-
      (if negb (status_code response =? 200)%Z then
         emit (Print [JStr (deepgram_error_message response)]) ;;
         ret (raise_for_status response)
       else ret (Ret tt)) ;;
    match raised with
    | Exc e => ret (Exc e)
    | Ret _ =>
      match json response with
      | Exc e => ret (Exc e)
      | Ret result => cli_show result
      end
    end
  end.

End Cli.

(* ================================================================== *)
(** ** transcribe_app.py: the start of a run, the statistics, the sidebar *)
(* ================================================================== *)

Section Page.

Variable env : Env.

Local Open Scope st_scope.

(** [bool(s)] for a string; a key that is not set is the empty text here
    ([None] and the empty string are both false). *)
Definition nonempty (s : str) : bool :=
  match s with [] => false | _ :: _ => true end.

(** Lines 29 to 34.  [GEMINI_API_KEY] is the second key read from the
    environment. *)
Definition check_keys (GEMINI_API_KEY : str) : St RunEnd :=
  if negb (nonempty (DEEPGRAM_API_KEY env)) then
    emit (StError (lit "❌ Missing Deepgram API Key in .env file. Please add DEEPGRAM_API_KEY to your .env file.")) ;;
    ret Stopped
  else if negb (nonempty GEMINI_API_KEY) then
    emit (StError (lit "❌ Missing Gemini API Key in .env file. Please add GEMINI_API_KEY to your .env file.")) ;;
    ret Stopped
  else ret Completed.

(** Lines 29 to 346: the key checks, then the upload and chat part. *)
Definition page (GEMINI_API_KEY : str) (uploaded_file : option UploadedFile)
    (prompt : option str) : St RunEnd :=
  keys <- check_keys GEMINI_API_KEY ;;
  match keys with
  | Stopped => ret Stopped
  | Completed => run env uploaded_file prompt
  end.

(** [s.split()]: the maximal runs of characters that are not white space.
    [word] holds the current run, last character first. *)
Fixpoint split_from (s word : str) : list str :=
  match s with
  | [] => match word with [] => [] | _ :: _ => [rev word] end
  | c :: r =>
    if isspace c then
      match word with
      | [] => split_from r []
      | _ :: _ => rev word :: split_from r []
      end
    else split_from r (c :: word)
  end.

Definition split (s : str) : list str := split_from s [].

(** Lines 257 and 258. *)
Definition word_count (transcript_text : str) : nat :=
  List.length (split transcript_text).

Definition char_count (transcript_text : str) : nat :=
  List.length transcript_text.

(** Lines 376 to 380: the system message after the chat was cleared. *)
Definition cleared_msg (transcript : str) : Message :=
  SystemMessage (lines
    [ lit "You are a helpful AI assistant. Answer user questions based on the provided audio transcription.";
      [];
      lit "AUDIO TRANSCRIPTION:";
      transcript ]).

(** Lines 374 to 382: what the button [Clear Chat History] does before the
    rerun. *)
Definition clear_chat_history : St unit :=
  s <- get_session ;;
  match transcript s with
  | Some transcript =>
    set_history [cleared_msg transcript] ;;
    emit (StSuccess (lit "Chat history cleared! Transcript preserved."))
  | None => ret tt
  end.

(** Lines 387 and 388: what the button [New Session] does before the rerun.
    [st.session_state.clear()] removes every key; the history is set again
    by lines 39 to 42 at the top of the run that follows, so the session of
    the model, which always has its history, is the initial one. *)
Definition new_session : St unit :=
  put_session initial_session ;;
  emit (StSuccess (lit "New session started!")).

(** Lines 394 to 397. *)
Definition role (msg : Message) : str :=
  if is_HumanMessage msg then lit "User" else lit "Assistant".

Definition chat_export (history : list Message) : str :=
  flat_map (fun msg => role msg ++ lit ": " ++ content msg ++ nl ++ nl)
           (skipn 1 history).

(** Line 412: the number of chat messages of the debug panel. *)
Definition chat_messages (history : list Message) : Z :=
  (Z.of_nat (List.length history) - 1)%Z.

Definition api_limits_warning : str :=
  lines
    [ [];
      lit "    **Gemini Free Tier Limits:**";
      lit "    - 15 requests/minute";
      lit "    - 1M tokens/day  ";
      lit "    - 1,500 requests/day";
      lit "    ";
      lit "    💡 Keep questions short!";
      lit "    " ].

(** How the sidebar ends: with [st.rerun()], or at its last line, where
    [export] is the text of the download button when there is one. *)
Inductive SidebarEnd :=
| Rerun
| Shown (export : option str).

(** Lines 351 to 405.  The two buttons are given as what they return; the
    debug panel is not logged. *)
Definition sidebar (uploaded_file : option UploadedFile)
    (clear_clicked new_clicked : bool) : St SidebarEnd :=
  match uploaded_file with
  | Some f => emit (StInfo (lit "**" ++ name f ++ lit "**" ++ nl
                            ++ fmt_mb (size_of f) ++ lit " MB"))
  | None => ret tt
  end ;;
  emit (StWarning api_limits_warning) ;;
  if clear_clicked then
    clear_chat_history ;; ret Rerun
  else if new_clicked then
    new_session ;; ret Rerun
  else
    s <- get_session ;;
    ret (Shown (if (1 <? List.length (history s))%nat
                then Some (chat_export (history s)) else None)).

End Page.

(* ================================================================== *)
(** ** Reading a request *)
(* ================================================================== *)

(** The value a request gives to the query parameter [k]. *)
Fixpoint param (k : str) (ps : list (str * str)) : option str :=
  match ps with
  | [] => None
  | (k', v) :: ps' => if PyStr.eqb k k' then Some v else param k ps'
  end.

(* ================================================================== *)
(** ** Predicates on responses *)
(* ================================================================== *)

(** The response carries the transcript [s] at the place the provider
    documents: status 200 and
    [results -> channels[0] -> alternatives[0] -> transcript]. *)
Definition has_transcript (r : Response) (s : str) : Prop :=
  status_code r = 200%Z /\
  exists result, json r = Ret result /\ strict_transcript result = Ret (JStr s).

(** The body is not JSON, or does not carry a string at
    [results -> channels[0] -> alternatives[0] -> transcript]. *)
Definition malformed (r : Response) : bool :=
  match json r with
  | Exc _ => true
  | Ret result =>
    match strict_transcript result with
    | Ret (JStr _) => false
    | _ => true
    end
  end.

(** The request raised, or its response has another status than 200 or a
    malformed body. *)
Definition in_trouble (outcome : PyResult Response) : bool :=
  match outcome with
  | Exc _ => true
  | Ret r => negb (status_code r =? 200)%Z || malformed r
  end.

(** A computation that makes no request and leaves the transcript and the
    name of the transcribed file as they are; its log only grows. *)
Definition chat_only {A} (m : St A) : Prop :=
  forall w, exists l,
    log (exec m w) = log w ++ l /\ posts l = [] /\
    transcript (session (exec m w)) = transcript (session w) /\
    last_uploaded_file (session (exec m w)) = last_uploaded_file (session w).

(** The world [w] with the history [h]. *)
Definition with_history (w : World) (h : list Message) : World :=
  {| session := {| history := h;
                   transcript := transcript (session w);
                   last_uploaded_file := last_uploaded_file (session w) |};
     log := log w |}.

(** The session a transcription stores. *)
Definition transcribed (f : UploadedFile) (t : str) : Session :=
  {| history := [context_msg t];
     transcript := Some t;
     last_uploaded_file := Some (name f) |}.

(** How a message of the history is shown (lines 278 to 280). *)
Definition shown (m : Message) : Event := ChatMessage (msg_type m) (content m).

(** Whether a run transcribes (lines 186 and 187). *)
Definition needs_transcription (s : Session) (f : UploadedFile) : bool :=
  negb (is_some (transcript s))
  || negb (option_str_eqb (last_uploaded_file s) (Some (name f))).

(** The system message holds the text [t]. *)
Definition holds (sys t : str) : Prop := exists pre post, sys = pre ++ t ++ post.

(** One exchange of the chat: the question and the reply. *)
Definition exchange (x : str * str) : list Message :=
  [HumanMessage (fst x); AIMessage (snd x)].

(** The lines of the export for one exchange. *)
Definition exported (x : str * str) : str :=
  (lit "User" ++ lit ": " ++ fst x ++ nl ++ nl)
  ++ (lit "Assistant" ++ lit ": " ++ snd x ++ nl ++ nl).

(** A character that is not white space. *)
Definition nonspace (c : char) : bool := negb (isspace c).

(** What the runs keep of a session: the history is a system message
    followed by exchanges, the system message holds the stored transcript,
    the stored transcript is trimmed and not empty, and the name of the
    transcribed file is stored exactly when a transcript is. *)
Definition session_ok (s : Session) : Prop :=
  (exists sys xs,
     history s = SystemMessage sys :: flat_map exchange xs /\
     forall t, transcript s = Some t -> exists pre post, sys = pre ++ t ++ post) /\
  (forall t, transcript s = Some t -> t <> [] /\ strip t = t) /\
  is_some (last_uploaded_file s) = is_some (transcript s).

(* ================================================================== *)
(** ** Stub providers and inputs for the examples *)
(* ================================================================== *)

(** The provider's response shape, with the given transcript. *)
Definition deepgram_body (transcript : Json) : Json :=
  JDict [(lit "results",
    JDict [(lit "channels",
      JList [JDict [(lit "alternatives",
        JList [JDict [(lit "transcript", transcript)]])]])])].

Definition ok_response (transcript : str) : Response :=
  {| status_code := 200;
     text := lit "(the body)";
     json := Ret (deepgram_body (JStr transcript)) |}.

Definition error_response (status : Z) (body : str) : Response :=
  {| status_code := status;
     text := body;
     json := Exc (Raised (lit "Expecting value: line 1 column 1 (char 0)")) |}.

Definition describe (e : PyExc) : str :=
  match e with
  | Raised d => d
  | HTTPError s => lit "HTTP " ++ of_Z s
  | KeyError _ => lit "key"
  | IndexError _ => lit "index out of range"
  | TypeError _ => lit "unsupported operation"
  | AttributeError _ a => lit "no attribute " ++ a
  end.

(** A provider that answers [primary] to a multipart request and
    [alternative] to a raw-body one, and a language model that always gives
    [reply]. *)
Definition stub_env (primary alternative : PyResult Response)
    (reply : PyResult str) : Env :=
  {| DEEPGRAM_API_KEY := lit "dg_secret";
     requests_post := fun req =>
       if is_Files (req_body req) then primary else alternative;
     ChatGoogleGenerativeAI := Ret tt;
     llm_invoke := fun _ => reply;
     exc_str := describe |}.

(** Stub settings of the examples. *)
Definition env_hello : Env :=
  stub_env (Ret (ok_response (lit "  hello world ")))
           (Ret (error_response 500 (lit "server overloaded")))
           (Ret (lit "It says hello.")).

Definition env_reset_500 : Env :=
  stub_env (Exc (Raised (lit "Connection reset by peer")))
           (Ret (error_response 500 (lit "server overloaded")))
           (Ret (lit "It says hello.")).

Definition env_415_hello : Env :=
  stub_env (Ret (error_response 415 (lit "unsupported media type")))
           (Ret (ok_response (lit "hello world")))
           (Ret (lit "It says hello.")).

Definition env_empty : Env :=
  stub_env (Ret (ok_response [])) (Ret (ok_response []))
           (Ret (lit "It says hello.")).

Definition env_blank : Env :=
  stub_env (Ret (ok_response (lit "   "))) (Ret (ok_response (lit "   ")))
           (Ret (lit "It says hello.")).

Definition env_401 : Env :=
  stub_env (Ret (error_response 401 (lit "Invalid credentials")))
           (Ret (error_response 401 (lit "Invalid credentials")))
           (Ret (lit "It says hello.")).

Definition env_llm_down : Env :=
  stub_env (Ret (ok_response (lit "hello world")))
           (Ret (ok_response (lit "hello world")))
           (Exc (Raised (lit "429 Resource has been exhausted (e.g. check quota)."))).

Definition clip : UploadedFile :=
  {| name := lit "clip.wav";
     type := Some (lit "audio/wav");
     getvalue := [82; 73; 70; 70; 0; 0; 0; 0; 0; 0] |}.

(** A response with status 200 whose list of channels is empty. *)
Definition no_channels : Response :=
  {| status_code := 200;
     text := lit "(the body)";
     json := Ret (JDict [(lit "results", JDict [(lit "channels", JList [])])]) |}.

Definition env_no_channels : Env :=
  stub_env (Ret no_channels) (Ret no_channels) (Ret (lit "It says hello.")).

(** A setting without the Deepgram key. *)
Definition env_no_key : Env :=
  {| DEEPGRAM_API_KEY := [];
     requests_post := fun _ => Ret (ok_response (lit "hello world"));
     ChatGoogleGenerativeAI := Ret tt;
     llm_invoke := fun _ => Ret (lit "It says hello.");
     exc_str := describe |}.

(** A file with an extension outside the list and a media type inside it. *)
Definition clip_bin : UploadedFile :=
  {| name := lit "clip.bin";
     type := Some (lit "audio/mpeg");
     getvalue := [73; 68; 51; 4; 0; 0; 0; 0; 0; 0] |}.

(** A file with neither an allowed extension nor an allowed media type. *)
Definition notes_txt : UploadedFile :=
  {| name := lit "notes.txt";
     type := Some (lit "text/plain");
     getvalue := [104; 105] |}.

Definition fresh : World := {| session := initial_session; log := [] |}.

(** A session after the transcription of [clip.wav] and three exchanges. *)
Definition chatting : World :=
  {| session :=
       {| history :=
            [ context_msg (lit "hello world");
              HumanMessage (lit "What is said?");
              AIMessage (lit "It says hello.");
              HumanMessage (lit "In which language?");
              AIMessage (lit "English.");
              HumanMessage (lit "How many words?");
              AIMessage (lit "Two.") ];
          transcript := Some (lit "hello world");
          last_uploaded_file := Some (lit "clip.wav") |};
     log := [] |}.

(** Another file under the name of the transcribed one. *)
Definition other_clip : UploadedFile :=
  {| name := lit "clip.wav";
     type := Some (lit "audio/wav");
     getvalue := [82; 73; 70; 70; 1; 2; 3] |}.

(* ================================================================== *)
(** ** The parts of a run *)
(* ================================================================== *)

(** The session after the transcription part of a run. *)
Definition after_upload (env : Env) (f : UploadedFile) (s : Session) : Session :=
  if needs_transcription s f then
    match eval (acquire env f) fresh with
    | Some t => transcribed f t
    | None => s
    end
  else s.

(** The requests of a run. *)
Definition requests_of (env : Env) (f : UploadedFile) (s : Session) : list Request :=
  if needs_transcription s f then
    primary_request env f ::
    match eval (transcribe_audio_primary env f) fresh with
    | Some _ => []
    | None => [alternative_request env f]
    end
  else [].

(* ================================================================== *)
(** ** Lemmas on strings *)
(* ================================================================== *)

Arguments lit : simpl never.

Lemma eqb_eq (s t : str) : PyStr.eqb s t = true <-> s = t.
Proof.
  revert t; induction s as [|a s IH]; intros [|b t]; simpl; split;
    try congruence; try discriminate; auto.
  - intros H. apply andb_true_iff in H as [Hab Hst].
    apply N.eqb_eq in Hab. apply IH in Hst. congruence.
  - intros H. injection H as -> ->. apply andb_true_iff. split.
    + apply N.eqb_refl.
    + now apply IH.
Qed.

Lemma eqb_refl (s : str) : PyStr.eqb s s = true.
Proof. now apply eqb_eq. Qed.

Lemma lstrip_whitespace (s : str) :
  forallb isspace s = true -> lstrip s = [].
Proof.
  induction s as [|c s IH]; simpl; auto.
  intros H. apply andb_true_iff in H as [Hc Hs]. rewrite Hc. auto.
Qed.

Lemma strip_whitespace (s : str) :
  forallb isspace s = true -> strip s = [].
Proof.
  intros H. unfold strip. now rewrite lstrip_whitespace.
Qed.

Lemma lstrip_nil_inv (s : str) :
  lstrip s = [] -> forallb isspace s = true.
Proof.
  induction s as [|c s IH]; simpl; auto.
  destruct (isspace c); simpl; auto. discriminate.
Qed.

Lemma strip_nil_inv (s : str) :
  strip s = [] -> forallb isspace s = true.
Proof.
  unfold strip, rstrip. intros H.
  assert (Hr : lstrip (rev (lstrip s)) = []).
  { rewrite <- (rev_involutive (lstrip (rev (lstrip s)))), H. reflexivity. }
  apply lstrip_nil_inv in Hr.
  (* the left-stripped text is all white space, so it is empty *)
  assert (Hl : forallb isspace (lstrip s) = true).
  { rewrite forallb_forall in *. intros c Hc. apply Hr. now apply in_rev in Hc. }
  assert (Hnil : lstrip s = []).
  { clear -Hl. induction s as [|c s IH]; simpl in *; auto.
    destruct (isspace c) eqn:Hc; auto.
    simpl in Hl. rewrite Hc in Hl. discriminate. }
  now apply lstrip_nil_inv.
Qed.

(* ================================================================== *)
(** ** Lemmas on the reading of a response *)
(* ================================================================== *)

Lemma getitem_0_truthy (v x : Json) : py_getitem_0 v = Ret x -> truthy v = true.
Proof.
  destruct v as [| | | |s|l|d]; simpl; try discriminate.
  - destruct s; [discriminate | reflexivity].
  - destruct l; [discriminate | reflexivity].
Qed.

Lemma getitem_key_get (v x : Json) (k : str) (default : Json) :
  py_getitem_key v k = Ret x -> py_get v k default = Ret x.
Proof.
  destruct v; simpl; try discriminate.
  destruct (dict_lookup k items); [auto | discriminate].
Qed.

Lemma strict_primary_read (r : Response) (s : str) :
  has_transcript r s ->
  primary_read r =
    Ret (match strip s with [] => None | _ :: _ => Some (strip s) end).
Proof.
  intros [Hst [result [Hj Hstrict]]].
  unfold primary_read. rewrite Hst, Hj. simpl.
  unfold strict_transcript in Hstrict.
  destruct (py_getitem_key result (lit "results")) as [results|] eqn:H1;
    [simpl in Hstrict | discriminate].
  destruct (py_getitem_key results (lit "channels")) as [channels|] eqn:H2;
    [simpl in Hstrict | discriminate].
  destruct (py_getitem_0 channels) as [channel0|] eqn:H3;
    [simpl in Hstrict | discriminate].
  destruct (py_getitem_key channel0 (lit "alternatives")) as [alternatives|] eqn:H4;
    [simpl in Hstrict | discriminate].
  destruct (py_getitem_0 alternatives) as [alternative0|] eqn:H5;
    [simpl in Hstrict | discriminate].
  rewrite ?(getitem_key_get _ _ _ (JDict []) H1); simpl.
  rewrite ?(getitem_key_get _ _ _ JNone H2); simpl.
  rewrite (getitem_0_truthy _ _ H3); simpl.
  rewrite ?H1; simpl. rewrite ?H2; simpl. rewrite ?H3; simpl.
  rewrite (getitem_key_get _ _ _ (JList []) H4); simpl.
  rewrite (getitem_0_truthy _ _ H5); simpl.
  rewrite H5; simpl.
  rewrite (getitem_key_get _ _ _ (JStr []) Hstrict); simpl.
  destruct (strip s); reflexivity.
Qed.

Lemma get_getitem_key (v x : Json) (k : str) (default : Json) :
  py_get v k default = Ret x -> truthy default = false -> truthy x = true ->
  py_getitem_key v k = Ret x.
Proof.
  destruct v; simpl; try discriminate.
  destruct (dict_lookup k items); intros H Hd Hx.
  - exact H.
  - injection H as <-. congruence.
Qed.

Lemma strip_cons_truthy (s : str) :
  strip s <> [] -> truthy (JStr s) = true.
Proof.
  destruct s; [intros H; now elim H | reflexivity].
Qed.

(** What the primary method returns is the trimmed, non-empty transcript of
    a well-formed response with status 200. *)
Lemma primary_read_Some (r : Response) (t : str) :
  primary_read r = Ret (Some t) ->
  exists s, has_transcript r s /\ t = strip s /\ t <> [].
Proof.
  unfold primary_read. intros H.
  destruct (status_code r =? 200)%Z eqn:Hst; simpl in H; [|discriminate].
  apply Z.eqb_eq in Hst.
  destruct (json r) as [result|] eqn:Hj; simpl in H; [|discriminate].
  destruct (py_get result (lit "results") (JDict [])) as [results|] eqn:G1;
    simpl in H; [|discriminate].
  destruct (py_get results (lit "channels") JNone) as [channels|] eqn:G2;
    simpl in H; [|discriminate].
  destruct (truthy channels) eqn:T2; simpl in H; [|discriminate].
  destruct (py_getitem_key result (lit "results")) as [results'|] eqn:K1;
    simpl in H; [|discriminate].
  destruct (py_getitem_key results' (lit "channels")) as [channels'|] eqn:K2;
    simpl in H; [|discriminate].
  destruct (py_getitem_0 channels') as [channel0|] eqn:K3;
    simpl in H; [|discriminate].
  destruct (py_get channel0 (lit "alternatives") (JList [])) as [alternatives|] eqn:G4;
    simpl in H; [|discriminate].
  destruct (truthy alternatives) eqn:T4; simpl in H; [|discriminate].
  destruct (py_getitem_0 alternatives) as [alternative0|] eqn:K5;
    simpl in H; [|discriminate].
  destruct (py_get alternative0 (lit "transcript") (JStr [])) as [transcript0|] eqn:G6;
    simpl in H; [|discriminate].
  destruct transcript0 as [| | | |s| |]; simpl in H; try discriminate.
  destruct (strip s) as [|c t'] eqn:Hs; simpl in H; [discriminate|].
  injection H as <-.
  exists s. split; [|split; [now rewrite Hs | discriminate]].
  split; [exact Hst|]. exists result. split; [exact Hj|].
  unfold strict_transcript. rewrite K1; simpl. rewrite K2; simpl.
  rewrite K3; simpl.
  rewrite (get_getitem_key _ _ _ _ G4 eq_refl T4); simpl.
  rewrite K5; simpl.
  apply (get_getitem_key _ _ _ _ G6 eq_refl).
  apply strip_cons_truthy. rewrite Hs. discriminate.
Qed.

Lemma primary_result_Some (outcome : PyResult Response) (t : str) :
  primary_result outcome = Some t ->
  exists r s, outcome = Ret r /\ has_transcript r s /\ t = strip s /\ t <> [].
Proof.
  unfold primary_result. destruct outcome as [r|e]; simpl; [|discriminate].
  destruct (primary_read r) as [[t'|]|] eqn:Hr; try discriminate.
  intros H. injection H as ->.
  apply primary_read_Some in Hr as [s Hs]. now exists r, s.
Qed.

Lemma has_transcript_functional (r : Response) (s s' : str) :
  has_transcript r s -> has_transcript r s' -> s = s'.
Proof.
  intros [_ [j [Hj Hs]]] [_ [j' [Hj' Hs']]]. congruence.
Qed.

(* ================================================================== *)
(** ** Lemmas on the log *)
(* ================================================================== *)

Lemma posts_app (l l' : list Event) : posts (l ++ l') = posts l ++ posts l'.
Proof. apply flat_map_app. Qed.

Lemma errors_app (l l' : list Event) : errors (l ++ l') = errors l ++ errors l'.
Proof. apply flat_map_app. Qed.

Lemma warnings_app (l l' : list Event) :
  warnings (l ++ l') = warnings l ++ warnings l'.
Proof. apply flat_map_app. Qed.

Lemma llm_calls_app (l l' : list Event) :
  llm_calls (l ++ l') = llm_calls l ++ llm_calls l'.
Proof. apply flat_map_app. Qed.

Lemma logged_logged (w : World) (l l' : list Event) :
  logged (logged w l) l' = logged w (l ++ l').
Proof. unfold logged; simpl. now rewrite app_assoc. Qed.

Lemma emit_logged (e : Event) (w : World) : emit e w = (tt, logged w [e]).
Proof. reflexivity. Qed.

Lemma post_run (env : Env) (req : Request) (w : World) :
  post env req w = (requests_post env req, logged w [HttpPost req]).
Proof. reflexivity. Qed.

Lemma primary_run (env : Env) (f : UploadedFile) (w : World) :
  transcribe_audio_primary env f w =
    (primary_result (requests_post env (primary_request env f)),
     logged w [HttpPost (primary_request env f)]).
Proof. reflexivity. Qed.

Lemma alternative_run (env : Env) (f : UploadedFile) (w : World) :
  transcribe_audio_alternative env f w =
    alternative_result env (requests_post env (alternative_request env f))
      (logged w [HttpPost (alternative_request env f)]).
Proof. reflexivity. Qed.

Lemma acquire_run (env : Env) (f : UploadedFile) (w : World) :
  acquire env f w =
    match primary_result (requests_post env (primary_request env f)) with
    | Some t =>
      (Some t, logged w [HttpPost (primary_request env f);
                         StatusText (lit "Primary method succeeded!")])
    | None =>
      transcribe_audio_alternative env f
        (logged w [HttpPost (primary_request env f);
                   StatusText (lit "Primary method failed, trying alternative method...")])
    end.
Proof.
  unfold acquire, bind. rewrite primary_run.
  destruct (primary_result _); rewrite emit_logged, logged_logged; reflexivity.
Qed.

Lemma in_trouble_primary_result (outcome : PyResult Response) :
  in_trouble outcome = true -> primary_result outcome = None.
Proof.
  intros H. destruct (primary_result outcome) as [t|] eqn:Ht; [|reflexivity].
  apply primary_result_Some in Ht as (r & s & -> & [Hst [result [Hj Hs]]] & _).
  simpl in H. unfold malformed in H. rewrite Hj, Hs in H.
  apply Z.eqb_eq in Hst. rewrite Hst in H. discriminate.
Qed.

Lemma alternative_result_ext (env env' : Env) (outcome : PyResult Response)
    (w : World) :
  (forall e, exc_str env' e = exc_str env e) ->
  alternative_result env' outcome w = alternative_result env outcome w.
Proof.
  intros Hstr. unfold alternative_result, transcription_error_message.
  destruct outcome as [r|e]; [|now rewrite Hstr].
  destruct (negb _); [reflexivity|].
  destruct (_ <~ json r ;; _) as [stripped|e]; [reflexivity | now rewrite Hstr].
Qed.

(* ================================================================== *)
(** ** The fallback between the two attempts *)
(* ================================================================== *)

(** C1.  Whenever the primary method returns a transcript, the acquisition
    returns that same text, which is the trimmed, non-empty transcript of the
    provider's response, and the only request made is the multipart one of
    the primary method: the raw-body request of the alternative method is
    not sent.  Read the other way round, the alternative method is invoked
    only when the primary method returned [None]. *)
Theorem acquire_primary_success (env : Env) (f : UploadedFile) (w : World)
    (t : str)
    (Hprimary : eval (transcribe_audio_primary env f) w = Some t) :
  acquire env f w =
    (Some t, logged w [HttpPost (primary_request env f);
                       StatusText (lit "Primary method succeeded!")]) /\
  posts (log (exec (acquire env f) w)) = posts (log w) ++ [primary_request env f] /\
  is_Files (req_body (primary_request env f)) = true /\
  exists r s, requests_post env (primary_request env f) = Ret r /\
              has_transcript r s /\ t = strip s /\ t <> [].
Proof.
  unfold eval in Hprimary. rewrite primary_run in Hprimary. simpl in Hprimary.
  unfold exec. rewrite acquire_run, Hprimary. simpl.
  repeat split.
  - now rewrite posts_app.
  - apply primary_result_Some in Hprimary as (r & s & Hr & Hs).
    now exists r, s.
Qed.

(** C1, at a stub provider: the primary request gets a padded transcript. *)
Lemma acquire_primary_success_witness :
  eval (transcribe_audio_primary env_hello clip) fresh = Some (lit "hello world") /\
  acquire env_hello clip fresh =
    (Some (lit "hello world"),
     logged fresh [HttpPost (primary_request env_hello clip);
                   StatusText (lit "Primary method succeeded!")]).
Proof.
  split.
  - vm_compute. reflexivity.
  - apply (acquire_primary_success env_hello clip fresh (lit "hello world")).
    vm_compute. reflexivity.
Defined.

(** C2.  Whenever the primary request raises, or is answered with another
    status than 200 or with a malformed body, the primary method returns
    [None] having done nothing but its request (no exception leaves it, no
    message is shown), the acquisition goes on with the alternative method,
    and its outcome carries nothing of the primary attempt: another provider
    that fails the primary request in another way and answers the
    alternative request alike leads to the same result and the same log. *)
Theorem acquire_primary_trouble (env : Env) (f : UploadedFile) (w : World)
    (Htrouble : in_trouble (requests_post env (primary_request env f)) = true) :
  transcribe_audio_primary env f w =
    (None, logged w [HttpPost (primary_request env f)]) /\
  acquire env f w =
    transcribe_audio_alternative env f
      (logged w [HttpPost (primary_request env f);
                 StatusText (lit "Primary method failed, trying alternative method...")]) /\
  forall env' : Env,
    DEEPGRAM_API_KEY env' = DEEPGRAM_API_KEY env ->
    (forall e, exc_str env' e = exc_str env e) ->
    requests_post env' (alternative_request env' f) =
      requests_post env (alternative_request env f) ->
    in_trouble (requests_post env' (primary_request env' f)) = true ->
    acquire env' f w = acquire env f w.
Proof.
  pose proof (in_trouble_primary_result _ Htrouble) as HA.
  split; [|split].
  - rewrite primary_run, HA. reflexivity.
  - rewrite acquire_run, HA. reflexivity.
  - intros env' Hkey Hstr Hpost Htrouble'.
    rewrite !acquire_run, HA, (in_trouble_primary_result _ Htrouble').
    rewrite !alternative_run, Hpost.
    assert (Hreq : forall g, primary_request env' g = primary_request env g).
    { intros g. unfold primary_request, authorization. now rewrite Hkey. }
    assert (Hreq' : forall g, alternative_request env' g = alternative_request env g).
    { intros g. unfold alternative_request, authorization. now rewrite Hkey. }
    rewrite Hreq, Hreq'. now apply alternative_result_ext.
Qed.

(** C2, at the stub of the scenario of the specification: the primary
    request is reset, the alternative one answered with status 500. *)
Lemma acquire_primary_trouble_witness :
  in_trouble (requests_post env_reset_500 (primary_request env_reset_500 clip)) = true /\
  transcribe_audio_primary env_reset_500 clip fresh =
    (None, logged fresh [HttpPost (primary_request env_reset_500 clip)]) /\
  acquire env_reset_500 clip fresh =
    (None,
     logged fresh
       [HttpPost (primary_request env_reset_500 clip);
        StatusText (lit "Primary method failed, trying alternative method...");
        HttpPost (alternative_request env_reset_500 clip);
        StError (lit "❌ Transcription failed - API Error 500: server overloaded")]).
Proof.
  assert (H : in_trouble (requests_post env_reset_500
                            (primary_request env_reset_500 clip)) = true)
    by reflexivity.
  destruct (acquire_primary_trouble env_reset_500 clip fresh H) as (HA & Hacq & _).
  split; [exact H | split; [exact HA|]].
  rewrite Hacq. reflexivity.
Defined.

(* ================================================================== *)
(** ** Provider errors in the alternative method and in the script *)
(* ================================================================== *)

Lemma alternative_bad_status (env : Env) (f : UploadedFile) (w : World)
    (r : Response) :
  requests_post env (alternative_request env f) = Ret r ->
  status_code r <> 200%Z ->
  transcribe_audio_alternative env f w =
    (None, logged w [HttpPost (alternative_request env f);
                     StError (api_error_message r)]).
Proof.
  intros Hr Hst. rewrite alternative_run, Hr. unfold alternative_result.
  apply Z.eqb_neq in Hst. rewrite Hst. simpl.
  unfold bind. rewrite emit_logged, logged_logged. reflexivity.
Qed.

Lemma cli_bad_status_log (env : Env) (guessed : option str) (data : bytes)
    (w : World) (r : Response) :
  requests_post env (cli_request env guessed data) = Ret r ->
  status_code r <> 200%Z ->
  exists rest,
    log (exec (cli_main env guessed data) w) =
      log w ++ HttpPost (cli_request env guessed data)
            :: Print [JStr (deepgram_error_message r)] :: rest.
Proof.
  intros Hr Hst. apply Z.eqb_neq in Hst.
  unfold exec, cli_main, bind. rewrite post_run, Hr, Hst. cbn [negb].
  rewrite emit_logged, logged_logged. unfold ret at 1.
  destruct (raise_for_status r); [|exists []; reflexivity].
  destruct (json r) as [result|]; [|exists []; reflexivity].
  unfold cli_show.
  destruct (strict_transcript result) as [t|e].
  - unfold bind. rewrite !emit_logged, !logged_logged. simpl.
    eexists. reflexivity.
  - destruct (is_KeyError e); [|exists []; reflexivity].
    unfold bind. rewrite !emit_logged, !logged_logged. simpl.
    eexists. reflexivity.
Qed.

Lemma cli_bad_status_raises (env : Env) (guessed : option str) (data : bytes)
    (w : World) (r : Response) :
  requests_post env (cli_request env guessed data) = Ret r ->
  (400 <= status_code r < 600)%Z ->
  cli_main env guessed data w =
    (Exc (HTTPError (status_code r)),
     logged w [HttpPost (cli_request env guessed data);
               Print [JStr (deepgram_error_message r)]]).
Proof.
  intros Hr Hst.
  unfold cli_main, bind. rewrite post_run, Hr.
  assert (H200 : (status_code r =? 200)%Z = false) by (apply Z.eqb_neq; lia).
  rewrite H200. cbn [negb]. rewrite emit_logged, logged_logged. unfold ret at 1.
  unfold raise_for_status.
  assert (Hrange : ((400 <=? status_code r) && (status_code r <? 600))%Z = true).
  { apply andb_true_iff. split; [apply Z.leb_le | apply Z.ltb_lt]; lia. }
  rewrite Hrange. reflexivity.
Qed.

(** C3 as stated does not hold of the command-line script: at status 401
    the script prints the status and the body and then lets the [HTTPError]
    of [raise_for_status] leave it. *)
Lemma cli_provider_error_escapes :
  requests_post env_401 (cli_request env_401 (Some (lit "audio/wav")) (getvalue clip))
    = Ret (error_response 401 (lit "Invalid credentials")) /\
  cli_main env_401 (Some (lit "audio/wav")) (getvalue clip) fresh =
    (Exc (HTTPError 401),
     logged fresh
       [HttpPost (cli_request env_401 (Some (lit "audio/wav")) (getvalue clip));
        Print [JStr (nl ++ lit "❌ Deepgram Error 401: Invalid credentials")]]).
Proof. split; vm_compute; reflexivity. Qed.

(** C3, amended.  On a status other than 200 the alternative method of the
    web application shows one error that carries the status code and the
    body as received, and returns [None]; nothing is raised.  The
    command-line script prints the status code and the body as received as
    well, and for a status from 400 to 599 it then ends with the [HTTPError]
    of [raise_for_status], which nothing catches. *)
Theorem provider_error_surfaced :
  (forall (env : Env) (f : UploadedFile) (w : World) (r : Response),
     requests_post env (alternative_request env f) = Ret r ->
     status_code r <> 200%Z ->
     transcribe_audio_alternative env f w =
       (None,
        logged w [HttpPost (alternative_request env f);
                  StError (api_error_message r)]) /\
     api_error_message r =
       lit "❌ Transcription failed - API Error "
       ++ of_Z (status_code r) ++ lit ": " ++ text r) /\
  (forall (env : Env) (guessed : option str) (data : bytes) (w : World)
          (r : Response),
     requests_post env (cli_request env guessed data) = Ret r ->
     status_code r <> 200%Z ->
     (exists rest,
        log (exec (cli_main env guessed data) w) =
          log w ++ HttpPost (cli_request env guessed data)
                :: Print [JStr (deepgram_error_message r)] :: rest) /\
     deepgram_error_message r =
       nl ++ lit "❌ Deepgram Error " ++ of_Z (status_code r) ++ lit ": " ++ text r /\
     ((400 <= status_code r < 600)%Z ->
      eval (cli_main env guessed data) w = Exc (HTTPError (status_code r)))).
Proof.
  split.
  - intros env f w r Hr Hst. split; [|reflexivity].
    now apply alternative_bad_status.
  - intros env guessed data w r Hr Hst. split; [|split; [reflexivity|]].
    + now apply cli_bad_status_log.
    + intros Hrange. unfold eval.
      now rewrite (cli_bad_status_raises env guessed data w r Hr Hrange).
Qed.

(** C3, amended, at status 401 with the body [Invalid credentials]. *)
Lemma provider_error_surfaced_witness :
  transcribe_audio_alternative env_401 clip fresh =
    (None,
     logged fresh [HttpPost (alternative_request env_401 clip);
                   StError (lit "❌ Transcription failed - API Error 401: Invalid credentials")]) /\
  eval (cli_main env_401 None (getvalue clip)) fresh = Exc (HTTPError 401).
Proof.
  split.
  - rewrite (proj1 (proj1 provider_error_surfaced env_401 clip fresh
                        (error_response 401 (lit "Invalid credentials"))
                        eq_refl ltac:(discriminate))).
    vm_compute. reflexivity.
  - apply (proj2 provider_error_surfaced env_401 None (getvalue clip) fresh
             (error_response 401 (lit "Invalid credentials")));
      [reflexivity | discriminate | simpl; lia].
Defined.

(* ================================================================== *)
(** ** Empty transcripts *)
(* ================================================================== *)

Lemma primary_result_transcript (r : Response) (s : str) :
  has_transcript r s ->
  primary_result (Ret r) =
    match strip s with [] => None | _ :: _ => Some (strip s) end.
Proof.
  intros H. unfold primary_result. simpl.
  now rewrite (strict_primary_read r s H).
Qed.

Lemma alternative_result_transcript (env : Env) (r : Response) (s : str)
    (w : World) :
  has_transcript r s ->
  alternative_result env (Ret r) w =
    match strip s with
    | [] => (None, logged w [StWarning empty_warning])
    | _ :: _ => (Some (strip s), w)
    end.
Proof.
  intros [Hst [result [Hj Hs]]]. unfold alternative_result.
  apply Z.eqb_eq in Hst. rewrite Hst, Hj. simpl. rewrite Hs. simpl.
  destruct (strip s); reflexivity.
Qed.

(** What the flow shows when the acquisition returned [None]. *)
Lemma transcription_flow_failed (env : Env) (f : UploadedFile) (w w' : World) :
  acquire env f
    (logged w [StInfo (lit "🎧 Starting transcription process...");
               StatusText (lit "Sending file to Deepgram...")]) = (None, w') ->
  transcription_flow env f w =
    (tt, logged w'
       [StatusText (lit "❌ Transcription failed with both methods.");
        StError (lit "Unable to transcribe the audio file. Please check:");
        StWrite (lit "- File contains clear speech");
        StWrite (lit "- Audio quality is good");
        StWrite (lit "- File is not corrupted");
        StWrite (lit "- Your Deepgram API key is valid and has credits")]).
Proof.
  intros H. unfold transcription_flow, bind.
  rewrite !emit_logged, logged_logged. simpl app. rewrite H.
  cbn [truthy_opt]. unfold logged, emit. simpl. now rewrite <- !app_assoc.
Qed.

(** C4 as stated does not hold of the flow: with an empty transcript from
    both attempts the flow shows, after the warning of the alternative
    method, the status [Transcription failed with both methods] and the error
    [Unable to transcribe the audio file], and stores no transcript. *)
Lemma both_empty_shown_as_failure :
  requests_post env_empty (primary_request env_empty clip) = Ret (ok_response []) /\
  requests_post env_empty (alternative_request env_empty clip) = Ret (ok_response []) /\
  strict_transcript (deepgram_body (JStr [])) = Ret (JStr []) /\
  transcription_flow env_empty clip fresh =
    (tt, logged fresh
       [StInfo (lit "🎧 Starting transcription process...");
        StatusText (lit "Sending file to Deepgram...");
        HttpPost (primary_request env_empty clip);
        StatusText (lit "Primary method failed, trying alternative method...");
        HttpPost (alternative_request env_empty clip);
        StWarning empty_warning;
        StatusText (lit "❌ Transcription failed with both methods.");
        StError (lit "Unable to transcribe the audio file. Please check:");
        StWrite (lit "- File contains clear speech");
        StWrite (lit "- Audio quality is good");
        StWrite (lit "- File is not corrupted");
        StWrite (lit "- Your Deepgram API key is valid and has credits")]) /\
  errors (log (exec (transcription_flow env_empty clip) fresh)) <> [].
Proof.
  repeat split; try (vm_compute; reflexivity).
  vm_compute. discriminate.
Qed.

(** C4, amended.  When the responses to both requests carry a transcript
    that is empty once trimmed, the alternative method shows one warning,
    [Transcription is empty], and no error, and the acquisition returns
    [None].  The flow around it then stores no transcript and shows its
    closing status and error, the ones it shows whenever the acquisition
    returned [None]. *)
Theorem both_empty (env : Env) (f : UploadedFile) (w : World)
    (rA rB : Response) (sA sB : str)
    (HA : requests_post env (primary_request env f) = Ret rA)
    (HB : requests_post env (alternative_request env f) = Ret rB)
    (HtA : has_transcript rA sA) (HtB : has_transcript rB sB)
    (HsA : strip sA = []) (HsB : strip sB = []) :
  acquire env f w =
    (None, logged w
       [HttpPost (primary_request env f);
        StatusText (lit "Primary method failed, trying alternative method...");
        HttpPost (alternative_request env f);
        StWarning empty_warning]) /\
  transcription_flow env f w =
    (tt, logged w
       [StInfo (lit "🎧 Starting transcription process...");
        StatusText (lit "Sending file to Deepgram...");
        HttpPost (primary_request env f);
        StatusText (lit "Primary method failed, trying alternative method...");
        HttpPost (alternative_request env f);
        StWarning empty_warning;
        StatusText (lit "❌ Transcription failed with both methods.");
        StError (lit "Unable to transcribe the audio file. Please check:");
        StWrite (lit "- File contains clear speech");
        StWrite (lit "- Audio quality is good");
        StWrite (lit "- File is not corrupted");
        StWrite (lit "- Your Deepgram API key is valid and has credits")]).
Proof.
  assert (Hacq : forall w0, acquire env f w0 =
    (None, logged w0
       [HttpPost (primary_request env f);
        StatusText (lit "Primary method failed, trying alternative method...");
        HttpPost (alternative_request env f);
        StWarning empty_warning])).
  { intros w0. rewrite acquire_run, HA, (primary_result_transcript rA sA HtA), HsA.
    rewrite alternative_run, HB, (alternative_result_transcript env rB sB _ HtB), HsB.
    now rewrite !logged_logged. }
  split; [apply Hacq|].
  rewrite (transcription_flow_failed env f w _ (Hacq _)).
  now rewrite !logged_logged.
Qed.

(** C4, amended, at a provider that answers both requests with an empty
    transcript. *)
Lemma both_empty_witness :
  acquire env_empty clip fresh =
    (None, logged fresh
       [HttpPost (primary_request env_empty clip);
        StatusText (lit "Primary method failed, trying alternative method...");
        HttpPost (alternative_request env_empty clip);
        StWarning empty_warning]).
Proof.
  apply (both_empty env_empty clip fresh (ok_response []) (ok_response []) [] []);
    try reflexivity;
    (split; [reflexivity | exists (deepgram_body (JStr [])); split; reflexivity]).
Defined.

(* ================================================================== *)
(** ** The two requests *)
(* ================================================================== *)

(** C5 as stated does not hold: the primary request carries
    [diarize=false], the alternative request carries no [diarize] parameter,
    so the two differ in more than the transport encoding. *)
Lemma alternative_request_omits_diarize :
  param (lit "diarize") (req_params (primary_request env_hello clip))
    = Some (lit "false") /\
  param (lit "diarize") (req_params (alternative_request env_hello clip)) = None /\
  req_params (alternative_request env_hello clip)
    <> req_params (primary_request env_hello clip).
Proof.
  repeat split; try (vm_compute; reflexivity).
  vm_compute. discriminate.
Qed.

(** C5, amended.  The alternative request goes to the same URL with the same
    credential and the same timeout of 120 seconds as the primary one, and
    with the same values for [detect_language], [punctuate], [model] and
    [smart_format]; it does not send [diarize], which the primary request
    sends as [false].  The primary request carries the audio as the file
    part [audio] of a multipart body, with the file's name and its media type
    (or [audio/mpeg]); the alternative request carries it as the body itself,
    with that media type in a [Content-Type] header. *)
Theorem alternative_request_vs_primary (env : Env) (f : UploadedFile) :
  req_url (alternative_request env f) = req_url (primary_request env f) /\
  req_timeout (alternative_request env f) = Some 120%Z /\
  req_timeout (primary_request env f) = Some 120%Z /\
  req_params (alternative_request env f) =
    [ (lit "detect_language", lit "true"); (lit "punctuate", lit "true");
      (lit "model", lit "nova-2"); (lit "smart_format", lit "true") ] /\
  req_params (primary_request env f) =
    req_params (alternative_request env f) ++ [(lit "diarize", lit "false")] /\
  param (lit "diarize") (req_params (alternative_request env f)) = None /\
  req_body (primary_request env f) =
    Files (lit "audio") (name f) (getvalue f) (type_or f (lit "audio/mpeg")) /\
  req_body (alternative_request env f) = Data (getvalue f) /\
  req_headers (primary_request env f) =
    [(lit "Authorization", lit "Token " ++ DEEPGRAM_API_KEY env)] /\
  req_headers (alternative_request env f) =
    req_headers (primary_request env f)
    ++ [(lit "Content-Type", type_or f (lit "audio/mpeg"))].
Proof.
  unfold alternative_request, primary_request, alternative_params,
    primary_params, authorization.
  cbn [req_url req_timeout req_params req_body req_headers app].
  repeat split.
Qed.

(* ================================================================== *)
(** ** White space *)
(* ================================================================== *)

(** C6.  A transcript made of white space only is treated by both methods
    as the empty transcript is: the primary method returns [None] without a
    message, the alternative method shows the warning [Transcription is
    empty] and returns [None]; in both, the response is handled as the
    response with the transcript [""] is. *)
Theorem whitespace_as_empty (env : Env) (f : UploadedFile) (w : World)
    (rA rB : Response) (sA sB : str)
    (HA : requests_post env (primary_request env f) = Ret rA)
    (HB : requests_post env (alternative_request env f) = Ret rB)
    (HtA : has_transcript rA sA) (HtB : has_transcript rB sB)
    (HsA : forallb isspace sA = true) (HsB : forallb isspace sB = true) :
  transcribe_audio_primary env f w =
    (None, logged w [HttpPost (primary_request env f)]) /\
  transcribe_audio_alternative env f w =
    (None, logged w [HttpPost (alternative_request env f);
                     StWarning empty_warning]) /\
  primary_result (Ret rA) = primary_result (Ret (ok_response [])) /\
  forall w0, alternative_result env (Ret rB) w0 =
             alternative_result env (Ret (ok_response [])) w0.
Proof.
  pose proof (strip_whitespace sA HsA) as HstripA.
  pose proof (strip_whitespace sB HsB) as HstripB.
  assert (Hempty : has_transcript (ok_response []) []).
  { split; [reflexivity|]. exists (deepgram_body (JStr [])). split; reflexivity. }
  repeat split.
  - rewrite primary_run, HA, (primary_result_transcript rA sA HtA), HstripA.
    reflexivity.
  - rewrite alternative_run, HB, (alternative_result_transcript env rB sB _ HtB),
      HstripB, logged_logged. reflexivity.
  - rewrite (primary_result_transcript rA sA HtA), HstripA.
    now rewrite (primary_result_transcript _ _ Hempty).
  - intros w0.
    rewrite (alternative_result_transcript env rB sB _ HtB), HstripB.
    now rewrite (alternative_result_transcript env _ _ _ Hempty).
Qed.

(** C6, at a provider that answers both requests with three spaces. *)
Lemma whitespace_as_empty_witness :
  forallb isspace (lit "   ") = true /\
  transcribe_audio_primary env_blank clip fresh =
    (None, logged fresh [HttpPost (primary_request env_blank clip)]) /\
  transcribe_audio_alternative env_blank clip fresh =
    (None, logged fresh [HttpPost (alternative_request env_blank clip);
                         StWarning empty_warning]).
Proof.
  assert (Ht : has_transcript (ok_response (lit "   ")) (lit "   ")).
  { split; [reflexivity|].
    exists (deepgram_body (JStr (lit "   "))). split; reflexivity. }
  assert (Hs : forallb isspace (lit "   ") = true) by reflexivity.
  destruct (whitespace_as_empty env_blank clip fresh
              (ok_response (lit "   ")) (ok_response (lit "   "))
              (lit "   ") (lit "   ") eq_refl eq_refl Ht Ht Hs Hs)
    as (H1 & H2 & _).
  split; [exact Hs | split; [exact H1 | exact H2]].
Defined.

(* ================================================================== *)
(** ** Upload validation *)
(* ================================================================== *)

Lemma validate_accepts (f : UploadedFile) :
  fst (validate_audio_file (Some f)) =
    negb (over_25_mb (size_of f))
    && (type_allowed f || extension_allowed f).
Proof.
  unfold validate_audio_file.
  destruct (over_25_mb (size_of f)); simpl; [reflexivity|].
  destruct (type_allowed f), (extension_allowed f); reflexivity.
Qed.

Lemma run_rejected (env : Env) (f : UploadedFile) (prompt : option str)
    (w : World) :
  fst (validate_audio_file (Some f)) = false ->
  run env (Some f) prompt w =
    (Stopped,
     logged w [StError (lit "❌ " ++ snd (validate_audio_file (Some f)))]).
Proof.
  intros H. unfold run.
  destruct (validate_audio_file (Some f)) as [is_valid message].
  simpl in H. subst is_valid. reflexivity.
Qed.

(** C7 as stated does not hold: a file named [clip.bin] with the media type
    [audio/mpeg] has an extension outside the list, and is accepted; the run
    goes on to the transcription requests. *)
Lemma unsupported_extension_accepted :
  lower (splitext_ext (name clip_bin)) = lit ".bin" /\
  extension_allowed clip_bin = false /\
  validate_audio_file (Some clip_bin) = (true, lit "Valid file: clip.bin (0.0 MB)") /\
  posts (log (exec (run env_hello (Some clip_bin) None) fresh)) =
    [primary_request env_hello clip_bin].
Proof. repeat split; vm_compute; reflexivity. Qed.

(** C7, amended.  The validation rejects a file of more than 25 MB
    (25 * 1024 * 1024 bytes), and a file whose media type is outside the
    allowed types and whose extension, in lower case, is outside [.wav],
    [.mp3], [.m4a], [.flac], [.ogg]; it accepts every other file, so also one
    with an unsupported extension and an allowed media type.  A run with a
    rejected file shows the reason and stops: it makes no request and no
    language-model call, and leaves the session as it was. *)
Theorem validation_rejects (f : UploadedFile) :
  (fst (validate_audio_file (Some f)) = false <->
     (25 * 1024 * 1024 < N.of_nat (List.length (getvalue f)))%N \/
     (type_allowed f = false /\
      mem (lower (splitext_ext (name f))) allowed_extensions = false)) /\
  forall (env : Env) (prompt : option str) (w : World),
    fst (validate_audio_file (Some f)) = false ->
    run env (Some f) prompt w =
      (Stopped,
       logged w [StError (lit "❌ " ++ snd (validate_audio_file (Some f)))]) /\
    posts (log (exec (run env (Some f) prompt) w)) = posts (log w) /\
    llm_calls (log (exec (run env (Some f) prompt) w)) = llm_calls (log w).
Proof.
  split.
  - rewrite validate_accepts. unfold over_25_mb, size_of.
    fold (extension_allowed f).
    destruct (N.ltb_spec (25 * 1048576) (N.of_nat (List.length (getvalue f))))
      as [Hbig | Hsmall]; simpl.
    + split; [intros _; left; lia | reflexivity].
    + destruct (type_allowed f), (extension_allowed f); simpl; split;
        try discriminate; try (intros _; right; now split);
        intros [Hbig | [H1 H2]]; try lia; discriminate.
  - intros env prompt w H. unfold exec.
    rewrite (run_rejected env f prompt w H). simpl.
    rewrite posts_app, llm_calls_app. simpl. now rewrite !app_nil_r.
Qed.

(** C7, amended, at a text file. *)
Lemma validation_rejects_witness :
  fst (validate_audio_file (Some notes_txt)) = false /\
  run env_hello (Some notes_txt) None fresh =
    (Stopped,
     logged fresh
       [StError (lit "❌ " ++ snd (validate_audio_file (Some notes_txt)))]).
Proof.
  assert (H : fst (validate_audio_file (Some notes_txt)) = false)
    by (vm_compute; reflexivity).
  split; [exact H|].
  apply (proj2 (validation_rejects notes_txt) env_hello None fresh H).
Defined.

(* ================================================================== *)
(** ** The history given to the language model *)
(* ================================================================== *)

Lemma limit_history_short (h : list Message) :
  (List.length h <= 5)%nat -> limit_history h = h.
Proof.
  intros H. unfold limit_history.
  destruct (5 <? List.length h)%nat eqn:E; [|reflexivity].
  apply Nat.ltb_lt in E. lia.
Qed.

Lemma last_n_app {A} (older recent : list A) :
  last_n (List.length recent) (older ++ recent) = recent.
Proof.
  unfold last_n. rewrite length_app.
  replace (List.length older + List.length recent - List.length recent)%nat
    with (List.length older) by lia.
  rewrite skipn_app, skipn_all, Nat.sub_diag. reflexivity.
Qed.

Lemma limit_history_long (sys m1 m2 m3 m4 : Message) (older : list Message) :
  older <> [] ->
  limit_history (sys :: older ++ [m1; m2; m3; m4]) = [sys; m1; m2; m3; m4].
Proof.
  intros Holder. unfold limit_history.
  assert (Hlen : (5 <? List.length (sys :: older ++ [m1; m2; m3; m4]))%nat = true).
  { apply Nat.ltb_lt. simpl. rewrite length_app. simpl.
    destruct older; [congruence | simpl; lia]. }
  rewrite Hlen.
  change (last_n 4 (sys :: older ++ [m1; m2; m3; m4]))
    with (last_n (List.length [m1; m2; m3; m4])
            ((sys :: older) ++ [m1; m2; m3; m4])).
  rewrite last_n_app. reflexivity.
Qed.

Lemma long_history_split (h : list Message) :
  (5 < List.length h)%nat ->
  exists sys older m1 m2 m3 m4,
    h = sys :: older ++ [m1; m2; m3; m4] /\ older <> [].
Proof.
  intros H. destruct h as [|sys rest]; [simpl in H; lia|]. simpl in H.
  pose proof (firstn_skipn (List.length rest - 4) rest) as Hsplit.
  assert (Hl : List.length (skipn (List.length rest - 4) rest) = 4%nat)
    by (rewrite length_skipn; lia).
  assert (Hf : List.length (firstn (List.length rest - 4) rest)
               = (List.length rest - 4)%nat)
    by (rewrite length_firstn; lia).
  destruct (skipn (List.length rest - 4) rest)
    as [|m1 [|m2 [|m3 [|m4 [|m5 more]]]]]; try discriminate.
  exists sys, (firstn (List.length rest - 4) rest), m1, m2, m3, m4.
  split; [now rewrite Hsplit|].
  intros Hnil. rewrite Hnil in Hf. simpl in Hf. lia.
Qed.

Lemma limit_history_keeps_last (h : list Message) (m : Message) :
  exists before, limit_history (h ++ [m]) = before ++ [m].
Proof.
  unfold limit_history. destruct (5 <? _)%nat eqn:E.
  - apply Nat.ltb_lt in E. rewrite length_app in E. simpl in E.
    unfold last_n. rewrite length_app. simpl List.length.
    rewrite skipn_app.
    replace (List.length h + 1 - 4 - List.length h)%nat with 0%nat by lia.
    simpl skipn at 2.
    exists (firstn 1 (h ++ [m]) ++ skipn (List.length h + 1 - 4) h).
    now rewrite <- app_assoc.
  - now exists h.
Qed.

(* ================================================================== *)
(** ** One chat exchange *)
(* ================================================================== *)

Lemma set_history_run (h : list Message) (w : World) :
  set_history h w = (tt, with_history w h).
Proof. reflexivity. Qed.

Lemma with_history_same (w : World) : with_history w (history (session w)) = w.
Proof. destruct w as [[h t n] l]. reflexivity. Qed.

Lemma pop_human_snoc (h : list Message) (content : str) :
  pop_human (h ++ [HumanMessage content]) = h.
Proof.
  unfold pop_human. rewrite rev_app_distr. simpl. apply rev_involutive.
Qed.

(** The [except] clause shows messages and pops a trailing [HumanMessage]. *)
Lemma chat_except_run (env : Env) (e : PyExc) (w : World) :
  exists l,
    chat_except env e w =
      (tt, with_history (logged w l) (pop_human (history (session w)))) /\
    posts l = [] /\ llm_calls l = [].
Proof.
  unfold chat_except.
  destruct (contains (lit "429") (exc_str env e)
            || contains (lit "quota") (lower (exc_str env e))).
  - eexists. split.
    + unfold bind. rewrite !emit_logged, !logged_logged. reflexivity.
    + split; reflexivity.
  - eexists. split.
    + unfold bind. rewrite !emit_logged. reflexivity.
    + split; reflexivity.
Qed.

(** The three ways a chat exchange goes. *)
Lemma chat_turn_run (env : Env) (prompt : str) (w : World) :
  let h := history (session w) ++ [HumanMessage prompt] in
  let said := ChatMessage (lit "user") prompt in
  chat_turn env prompt w =
    match ChatGoogleGenerativeAI env with
    | Exc e => chat_except env e (with_history (logged w [said]) h)
    | Ret _ =>
      match llm_invoke env (limit_history h) with
      | Exc e =>
        chat_except env e
          (with_history (logged w [said; LlmInvoke (limit_history h)]) h)
      | Ret reply =>
        (tt, with_history
               (logged w [said; LlmInvoke (limit_history h);
                          ChatMessage (lit "assistant") reply])
               (h ++ [AIMessage reply]))
      end
    end.
Proof.
  intros h said. unfold chat_turn, bind, get_session, invoke, bind, ret.
  rewrite set_history_run, !emit_logged.
  destruct (ChatGoogleGenerativeAI env) as [u|e]; [|reflexivity].
  cbn [history session logged with_history]. fold h.
  generalize (limit_history h). intros limited.
  destruct (llm_invoke env limited) as [reply|e].
  - unfold emit, set_history, with_history, logged, said.
    cbn [history session log transcript last_uploaded_file].
    now rewrite <- !app_assoc.
  - unfold emit, with_history, logged, said.
    cbn [history session log transcript last_uploaded_file].
    now rewrite <- !app_assoc.
Qed.

Lemma chat_turn_llm_calls (env : Env) (prompt : str) (w : World) (u : unit) :
  ChatGoogleGenerativeAI env = Ret u ->
  llm_calls (log (exec (chat_turn env prompt) w)) =
    llm_calls (log w)
    ++ [limit_history (history (session w) ++ [HumanMessage prompt])].
Proof.
  intros Hllm. unfold exec. rewrite chat_turn_run, Hllm.
  set (h := history (session w) ++ [HumanMessage prompt]).
  destruct (llm_invoke env (limit_history h)) as [reply|e].
  - simpl. rewrite llm_calls_app. reflexivity.
  - destruct (chat_except_run env e
      (with_history
         (logged w [ChatMessage (lit "user") prompt; LlmInvoke (limit_history h)])
         h)) as (l & -> & _ & Hl).
    simpl. rewrite !llm_calls_app, Hl. simpl. now rewrite app_nil_r.
Qed.

(** C8.  In a chat exchange the language model is invoked once, with the
    limited form of the stored history (which ends with the new user
    message): the full history when it has at most five messages, and
    otherwise its first message, the system message, followed by its last
    four messages, five messages in all. *)
Theorem llm_gets_limited_history (env : Env) (prompt : str) (w : World)
    (Hllm : ChatGoogleGenerativeAI env = Ret tt) :
  let h := history (session w) ++ [HumanMessage prompt] in
  llm_calls (log (exec (chat_turn env prompt) w)) =
    llm_calls (log w) ++ [limit_history h] /\
  ((List.length h <= 5)%nat -> limit_history h = h) /\
  ((5 < List.length h)%nat ->
   exists sys older m1 m2 m3 m4,
     h = sys :: older ++ [m1; m2; m3; m4] /\ older <> [] /\
     limit_history h = [sys; m1; m2; m3; m4]).
Proof.
  intros h. split; [|split].
  - now apply (chat_turn_llm_calls env prompt w tt).
  - apply limit_history_short.
  - intros Hlong.
    destruct (long_history_split h Hlong)
      as (sys & older & m1 & m2 & m3 & m4 & Hh & Holder).
    exists sys, older, m1, m2, m3, m4. split; [exact Hh | split; [exact Holder|]].
    rewrite Hh. now apply limit_history_long.
Qed.

(** C8, in a session with seven stored messages: the model gets the system
    message and the last four of the eight. *)
Lemma llm_gets_limited_history_witness :
  ChatGoogleGenerativeAI env_hello = Ret tt /\
  llm_calls (log (exec (chat_turn env_hello (lit "Who speaks?")) chatting)) =
    [[ context_msg (lit "hello world");
       AIMessage (lit "English.");
       HumanMessage (lit "How many words?");
       AIMessage (lit "Two.");
       HumanMessage (lit "Who speaks?") ]].
Proof.
  split; [reflexivity|].
  rewrite (proj1 (llm_gets_limited_history env_hello (lit "Who speaks?")
                    chatting eq_refl)).
  vm_compute. reflexivity.
Defined.

(** C9.  A chat exchange appends the user message before the language model
    is invoked (the history the model is given ends with it).  When the
    client cannot be built or the invocation raises, the user message is
    removed again and the session is what it was before the exchange; when
    the model replies, the history is the former one followed by the user
    message and the reply.  In every case the history after the exchange is
    one of these two. *)
Theorem chat_turn_atomic (env : Env) (prompt : str) (w : World) :
  let h := history (session w) in
  let h' := h ++ [HumanMessage prompt] in
  (ChatGoogleGenerativeAI env = Ret tt ->
   llm_calls (log (exec (chat_turn env prompt) w)) =
     llm_calls (log w) ++ [limit_history h'] /\
   exists before, limit_history h' = before ++ [HumanMessage prompt]) /\
  (forall e,
     ChatGoogleGenerativeAI env = Exc e \/
     (ChatGoogleGenerativeAI env = Ret tt /\
      llm_invoke env (limit_history h') = Exc e) ->
     session (exec (chat_turn env prompt) w) = session w) /\
  (forall reply,
     ChatGoogleGenerativeAI env = Ret tt ->
     llm_invoke env (limit_history h') = Ret reply ->
     session (exec (chat_turn env prompt) w) =
       session (with_history w (h ++ [HumanMessage prompt; AIMessage reply]))) /\
  (history (session (exec (chat_turn env prompt) w)) = h \/
   exists reply,
     history (session (exec (chat_turn env prompt) w)) =
       h ++ [HumanMessage prompt; AIMessage reply]).
Proof.
  intros h h'.
  assert (Hfail : forall e w1,
    session w1 = session (with_history w h') ->
    session (exec (chat_except env e) w1) = session w).
  { intros e w1 Hw1. unfold exec.
    destruct (chat_except_run env e w1) as (l & -> & _). simpl.
    rewrite Hw1. simpl. unfold h'. rewrite pop_human_snoc.
    unfold h. destruct w as [[hw t n] lw]. reflexivity. }
  assert (Hok : forall reply,
    llm_invoke env (limit_history h') = Ret reply ->
    forall u, ChatGoogleGenerativeAI env = Ret u ->
    session (exec (chat_turn env prompt) w) =
      session (with_history w (h ++ [HumanMessage prompt; AIMessage reply]))).
  { intros reply Hreply u Hu. unfold exec.
    rewrite chat_turn_run, Hu. fold h h'. rewrite Hreply. simpl.
    unfold h'. now rewrite <- app_assoc. }
  split; [|split; [|split]].
  - intros Hllm. split.
    + now apply (chat_turn_llm_calls env prompt w tt).
    + apply limit_history_keeps_last.
  - intros e [Hctor | [Hctor Hinv]]; unfold exec in *;
      rewrite chat_turn_run, Hctor; fold h h'.
    + apply Hfail. reflexivity.
    + rewrite Hinv. apply Hfail. reflexivity.
  - intros reply Hllm Hreply. now apply (Hok reply Hreply tt).
  - unfold exec. pose proof (chat_turn_run env prompt w) as Hrun.
    fold h h' in Hrun. cbv zeta in Hrun.
    destruct (ChatGoogleGenerativeAI env) as [u|e] eqn:Hctor.
    + destruct (llm_invoke env (limit_history h')) as [reply|e] eqn:Hinv.
      * right. exists reply. rewrite Hrun. simpl. unfold h'.
        now rewrite <- app_assoc.
      * left. rewrite Hrun.
        change (history (session (exec (chat_except env e)
          (with_history
             (logged w [ChatMessage (lit "user") prompt; LlmInvoke (limit_history h')])
             h'))) = h).
        rewrite Hfail; reflexivity.
    + left. rewrite Hrun.
      change (history (session (exec (chat_except env e)
        (with_history (logged w [ChatMessage (lit "user") prompt]) h'))) = h).
      rewrite Hfail; reflexivity.
Qed.

(** C9, at a language model that answers with a quota error: the session
    is as before, and the model has been given the user message. *)
Lemma chat_turn_atomic_witness :
  ChatGoogleGenerativeAI env_llm_down = Ret tt /\
  llm_invoke env_llm_down
    (limit_history (history (session chatting) ++ [HumanMessage (lit "Who speaks?")]))
    = Exc (Raised (lit "429 Resource has been exhausted (e.g. check quota).")) /\
  session (exec (chat_turn env_llm_down (lit "Who speaks?")) chatting)
    = session chatting.
Proof.
  split; [reflexivity | split; [reflexivity|]].
  apply (proj1 (proj2 (chat_turn_atomic env_llm_down (lit "Who speaks?") chatting))
           (Raised (lit "429 Resource has been exhausted (e.g. check quota)."))).
  right. split; reflexivity.
Defined.

(* ================================================================== *)
(** ** A second upload under the same name *)
(* ================================================================== *)

Lemma exec_bind {A B} (m : St A) (k : A -> St B) (w : World) :
  exec (bind m k) w = exec (k (eval m w)) (exec m w).
Proof. unfold exec, eval, bind. now destruct (m w). Qed.

Lemma chat_only_ret {A} (a : A) : chat_only (ret a).
Proof. intros w. exists []. simpl. now rewrite app_nil_r. Qed.

Lemma chat_only_bind {A B} (m : St A) (k : A -> St B) :
  chat_only m -> (forall a, chat_only (k a)) -> chat_only (bind m k).
Proof.
  intros Hm Hk w. rewrite exec_bind.
  destruct (Hm w) as (l1 & Hl1 & Hp1 & Ht1 & Hn1).
  destruct (Hk (eval m w) (exec m w)) as (l2 & Hl2 & Hp2 & Ht2 & Hn2).
  exists (l1 ++ l2). rewrite Hl2, Hl1, posts_app, Hp1, Hp2, Ht2, Ht1, Hn2, Hn1.
  now rewrite app_assoc.
Qed.

Lemma chat_only_emit (e : Event) : posts [e] = [] -> chat_only (emit e).
Proof. intros H w. exists [e]. now rewrite H. Qed.

Lemma chat_only_get_session : chat_only get_session.
Proof. intros w. exists []. simpl. now rewrite app_nil_r. Qed.

Lemma chat_only_set_history (h : list Message) : chat_only (set_history h).
Proof. intros w. exists []. simpl. now rewrite app_nil_r. Qed.

Create HintDb chat_only.
#[local] Hint Resolve chat_only_ret chat_only_emit chat_only_get_session
  chat_only_set_history : chat_only.
#[local] Hint Extern 2 (chat_only (bind _ _)) =>
  apply chat_only_bind; [|intros ?] : chat_only.
#[local] Hint Extern 1 (posts _ = []) => reflexivity : chat_only.

Lemma chat_only_chat_except (env : Env) (e : PyExc) :
  chat_only (chat_except env e).
Proof.
  unfold chat_except.
  destruct (contains _ _ || contains _ _); auto 10 with chat_only.
Qed.

Lemma chat_only_chat_turn (env : Env) (prompt : str) :
  chat_only (chat_turn env prompt).
Proof.
  unfold chat_turn, invoke.
  repeat (apply chat_only_bind; [auto with chat_only | intros ?]).
  destruct (ChatGoogleGenerativeAI env); [|apply chat_only_chat_except].
  repeat (apply chat_only_bind; [auto 10 with chat_only | intros ?]).
  match goal with |- chat_only (match ?r with _ => _ end) => destruct r end;
    [auto 10 with chat_only | apply chat_only_chat_except].
Qed.

Lemma chat_only_show_history (messages : list Message) :
  chat_only (show_history messages).
Proof.
  induction messages as [|m r IH]; simpl; auto with chat_only.
Qed.

Lemma chat_only_transcript_and_chat (env : Env) (prompt : option str) :
  chat_only (transcript_and_chat env prompt).
Proof.
  unfold transcript_and_chat.
  apply chat_only_bind; [auto with chat_only | intros s].
  destruct (truthy_opt (transcript s)); [|auto with chat_only].
  destruct (transcript s); [|auto with chat_only].
  apply chat_only_bind; [auto with chat_only | intros ?].
  apply chat_only_bind; [apply chat_only_show_history | intros ?].
  destruct (truthy_opt prompt); [|auto with chat_only].
  destruct prompt; [apply chat_only_chat_turn | auto with chat_only].
Qed.

Lemma run_same_name (env : Env) (f : UploadedFile) (prompt : option str)
    (w : World) (t : str) :
  last_uploaded_file (session w) = Some (name f) ->
  transcript (session w) = Some t ->
  fst (validate_audio_file (Some f)) = true ->
  run env (Some f) prompt w =
    (Completed,
     exec (transcript_and_chat env prompt)
       (logged w [StSuccess (lit "✅ " ++ snd (validate_audio_file (Some f)))])).
Proof.
  intros Hname Ht Hvalid. unfold run.
  destruct (validate_audio_file (Some f)) as [is_valid message].
  simpl in Hvalid. subst is_valid. cbn [negb snd].
  unfold bind at 1. rewrite emit_logged.
  unfold bind at 1, get_session. cbn [logged session].
  rewrite Hname, Ht. cbn [option_str_eqb is_some negb orb].
  rewrite eqb_refl. cbn [negb].
  unfold bind, ret, exec.
  destruct (transcript_and_chat env prompt _). reflexivity.
Qed.

Lemma transcript_shown (env : Env) (prompt : option str) (w : World) (t : str) :
  transcript (session w) = Some t -> t <> [] ->
  exists rest,
    log (exec (transcript_and_chat env prompt) w) = log w ++ StWrite t :: rest.
Proof.
  intros Ht Hne. unfold transcript_and_chat.
  rewrite exec_bind. unfold eval, exec at 2, get_session. cbn [fst snd].
  rewrite Ht. destruct t as [|c t']; [congruence|]. cbn [truthy_opt].
  rewrite exec_bind. unfold exec at 2. rewrite emit_logged. cbn [snd].
  match goal with |- context [exec ?m (logged w ?l)] =>
    assert (Hm : chat_only m)
  end.
  { apply chat_only_bind; [apply chat_only_show_history | intros ?].
    destruct (truthy_opt prompt); [|auto with chat_only].
    destruct prompt; [apply chat_only_chat_turn | auto with chat_only]. }
  destruct (Hm (logged w [StWrite (c :: t')])) as (l & Hl & _).
  exists l. rewrite Hl. simpl. now rewrite <- app_assoc.
Qed.

(** C10.  When the session holds a transcript and the uploaded file has the
    name of the file last transcribed, a run makes no transcription request,
    whatever the bytes of the file: the transcript and the file name of the
    session stay as they are, and the stored transcript is the one shown. *)
Theorem same_name_reuses_transcript (env : Env) (f : UploadedFile)
    (prompt : option str) (w : World) (t : str)
    (Hname : last_uploaded_file (session w) = Some (name f))
    (Htranscript : transcript (session w) = Some t)
    (Hvalid : fst (validate_audio_file (Some f)) = true) :
  eval (run env (Some f) prompt) w = Completed /\
  posts (log (exec (run env (Some f) prompt) w)) = posts (log w) /\
  transcript (session (exec (run env (Some f) prompt) w)) = Some t /\
  last_uploaded_file (session (exec (run env (Some f) prompt) w)) = Some (name f) /\
  (t <> [] ->
   exists rest,
     log (exec (run env (Some f) prompt) w) =
       log w ++ StSuccess (lit "✅ " ++ snd (validate_audio_file (Some f)))
             :: StWrite t :: rest).
Proof.
  pose proof (run_same_name env f prompt w t Hname Htranscript Hvalid) as Hrun.
  set (shown := StSuccess (lit "✅ " ++ snd (validate_audio_file (Some f)))) in *.
  destruct (chat_only_transcript_and_chat env prompt (logged w [shown]))
    as (l & Hl & Hp & Ht & Hn).
  unfold eval, exec. rewrite Hrun. cbn [fst snd].
  split; [reflexivity|]. split; [|split; [|split]].
  - rewrite Hl. simpl. rewrite !posts_app, Hp. simpl. now rewrite !app_nil_r.
  - rewrite Ht. exact Htranscript.
  - rewrite Hn. exact Hname.
  - intros Hne.
    destruct (transcript_shown env prompt (logged w [shown]) t Htranscript Hne)
      as (rest & Hrest).
    exists rest. rewrite Hrest. simpl. now rewrite <- app_assoc.
Qed.

(** C10, with another file under the name [clip.wav] and a chat input. *)
Lemma same_name_reuses_transcript_witness :
  getvalue other_clip <> getvalue clip /\
  last_uploaded_file (session chatting) = Some (name other_clip) /\
  fst (validate_audio_file (Some other_clip)) = true /\
  posts (log (exec (run env_hello (Some other_clip) (Some (lit "Who speaks?")))
                chatting)) = [] /\
  transcript (session (exec (run env_hello (Some other_clip)
                               (Some (lit "Who speaks?"))) chatting))
    = Some (lit "hello world").
Proof.
  assert (Hvalid : fst (validate_audio_file (Some other_clip)) = true)
    by (vm_compute; reflexivity).
  destruct (same_name_reuses_transcript env_hello other_clip
              (Some (lit "Who speaks?")) chatting (lit "hello world")
              eq_refl eq_refl Hvalid) as (_ & Hposts & Ht & _).
  split; [discriminate|]. split; [reflexivity|]. split; [exact Hvalid|].
  split; [exact Hposts | exact Ht].
Defined.

(* ================================================================== *)
(** ** Examples *)
(* ================================================================== *)

Example strip_example : strip (lit "  hello world 	") = lit "hello world".
Proof. vm_compute. reflexivity. Qed.

Example lit_example : lit "❌ ok" = [0x274C; 0x20; 0x6F; 0x6B].
Proof. vm_compute. reflexivity. Qed.

Example of_Z_example : of_Z 401 = lit "401".
Proof. vm_compute. reflexivity. Qed.

Example splitext_example :
  map splitext_ext
    [lit "a.b.WAV"; lit ".wav"; lit "d.x/clip"; lit "..ogg"; lit "x.y.ogg"]
  = [lit ".WAV"; []; []; []; lit ".ogg"].
Proof. vm_compute. reflexivity. Qed.

(** 0.25 MB and 0.75 MB are ties: they go to the even digit. *)
Example fmt_mb_example :
  map fmt_mb [0; 10; 262144; 786432; 1048576; 26214401]%N
  = [lit "0.0"; lit "0.0"; lit "0.2"; lit "0.8"; lit "1.0"; lit "25.0"].
Proof. vm_compute. reflexivity. Qed.

Example validate_example :
  map (fun f => fst (validate_audio_file (Some f))) [clip; clip_bin; notes_txt]
  = [true; true; false].
Proof. vm_compute. reflexivity. Qed.

(** The primary request answered with 415, the alternative one with the
    transcript [hello world]: the text is returned and nothing is shown but
    the status line. *)
Example scenario_fallback :
  acquire env_415_hello clip fresh =
    (Some (lit "hello world"),
     logged fresh
       [HttpPost (primary_request env_415_hello clip);
        StatusText (lit "Primary method failed, trying alternative method...");
        HttpPost (alternative_request env_415_hello clip)]).
Proof. vm_compute. reflexivity. Qed.

(** A transcription that succeeds sets the three keys of the session. *)
Example scenario_stored :
  session (exec (run env_hello (Some clip) None) fresh) =
    {| history := [context_msg (lit "hello world")];
       transcript := Some (lit "hello world");
       last_uploaded_file := Some (lit "clip.wav") |}.
Proof. vm_compute. reflexivity. Qed.

(** A reply of the language model is appended after the user message. *)
Example scenario_reply :
  history (session (exec (chat_turn env_hello (lit "Who speaks?")) fresh)) =
    [initial_system_message;
     HumanMessage (lit "Who speaks?");
     AIMessage (lit "It says hello.")].
Proof. vm_compute. reflexivity. Qed.

(** A quota error of the language model shows the rate-limit messages. *)
Example scenario_quota :
  errors (log (exec (chat_turn env_llm_down (lit "Who speaks?")) chatting))
  = [lit "❌ **Gemini API Rate Limit Exceeded**"].
Proof. vm_compute. reflexivity. Qed.

(** A response without [results] is noticed by the script as a [KeyError];
    one whose [channels] is empty leaves it with an [IndexError]. *)
Example scenario_cli_formats :
  eval (cli_show (JDict [(lit "error", JStr (lit "bad"))])) fresh = Ret tt /\
  eval (cli_show (JDict [(lit "results", JDict [(lit "channels", JList [])])]))
       fresh = Exc (IndexError TList).
Proof. split; vm_compute; reflexivity. Qed.

(** The troubles of the primary request: an exception, another status, a
    body without [results], a transcript that is not a string; and a
    response that is in order. *)
Example in_trouble_example :
  map (fun o => (in_trouble o, primary_result o))
    [ Exc (Raised (lit "Connection reset by peer"));
      Ret (error_response 415 (lit "unsupported media type"));
      Ret {| status_code := 200; text := lit "{}"; json := Ret (JDict []) |};
      Ret {| status_code := 200; text := lit "(the body)";
             json := Ret (deepgram_body JNone) |};
      Ret (ok_response (lit " hi ")) ]
  = [ (true, None); (true, None); (true, None); (true, None);
      (false, Some (lit "hi")) ].
Proof. vm_compute. reflexivity. Qed.

(* ================================================================== *)
(** ** Trimmed text *)
(* ================================================================== *)

Lemma lstrip_head (s : str) (c : char) (r : str) :
  lstrip s = c :: r -> isspace c = false.
Proof.
  induction s as [|a s IH]; simpl; [discriminate|].
  destruct (isspace a) eqn:Ha; [exact IH|].
  intros H. injection H as <- _. exact Ha.
Qed.

Lemma lstrip_fixed (s : str) :
  (forall c r, s = c :: r -> isspace c = false) -> lstrip s = s.
Proof.
  destruct s as [|c r]; [reflexivity|]. intros H. simpl.
  now rewrite (H c r eq_refl).
Qed.

Lemma lstrip_idempotent (s : str) : lstrip (lstrip s) = lstrip s.
Proof. apply lstrip_fixed. intros c r. apply lstrip_head. Qed.

Lemma lstrip_suffix (s : str) : exists ws, s = ws ++ lstrip s.
Proof.
  induction s as [|c s [ws IH]]; [now exists []|]. simpl.
  destruct (isspace c).
  - exists (c :: ws). simpl. now rewrite <- IH.
  - now exists [].
Qed.

Lemma rstrip_prefix (s : str) : exists ws, s = rstrip s ++ ws.
Proof.
  destruct (lstrip_suffix (rev s)) as [ws H]. exists (rev ws). unfold rstrip.
  rewrite <- rev_app_distr, <- H. now rewrite rev_involutive.
Qed.

Lemma rstrip_idempotent (s : str) : rstrip (rstrip s) = rstrip s.
Proof. unfold rstrip. now rewrite rev_involutive, lstrip_idempotent. Qed.

Lemma strip_head (s : str) (c : char) (r : str) :
  strip s = c :: r -> isspace c = false.
Proof.
  unfold strip. intros H.
  destruct (rstrip_prefix (lstrip s)) as [ws Hws]. rewrite H in Hws.
  now apply (lstrip_head s c (r ++ ws)).
Qed.

(** Trimming a trimmed text changes nothing. *)
Lemma strip_idempotent (s : str) : strip (strip s) = strip s.
Proof.
  unfold strip at 1.
  rewrite (lstrip_fixed (strip s)) by (intros c r; apply strip_head).
  unfold strip. apply rstrip_idempotent.
Qed.

(* ================================================================== *)
(** ** What the two methods make of an outcome *)
(* ================================================================== *)

(** The three ways the alternative method ends. *)
Lemma alternative_result_cases (env : Env) (o : PyResult Response) (w : World) :
  (exists r s, o = Ret r /\ has_transcript r s /\ strip s <> [] /\
     alternative_result env o w = (Some (strip s), w)) \/
  (exists r s, o = Ret r /\ has_transcript r s /\ strip s = [] /\
     alternative_result env o w = (None, logged w [StWarning empty_warning])) \/
  (exists m, in_trouble o = true /\
     alternative_result env o w = (None, logged w [StError m])).
Proof.
  destruct o as [r|e].
  2:{ right. right. eexists. split; reflexivity. }
  unfold alternative_result, in_trouble, malformed.
  destruct (status_code r =? 200)%Z eqn:Hst; cbn [negb orb].
  2:{ right. right. eexists. split; reflexivity. }
  apply Z.eqb_eq in Hst.
  destruct (json r) as [result|e] eqn:Hj; cbn [py_bind].
  2:{ right. right. eexists. split; reflexivity. }
  destruct (strict_transcript result) as [t|e] eqn:Hs; cbn [py_bind].
  2:{ right. right. eexists. split; reflexivity. }
  destruct t as [| | | |s| |];
    try (right; right; eexists; split; reflexivity).
  assert (Ht : has_transcript r s).
  { split; [exact Hst|]. now exists result. }
  cbn [py_strip truthy]. destruct (strip s) as [|c t] eqn:Hstrip.
  - right. left. exists r, s.
    split; [reflexivity | split; [exact Ht | split; [exact Hstrip | reflexivity]]].
  - left. exists r, s. rewrite Hstrip.
    split; [reflexivity | split; [exact Ht | split; [discriminate | reflexivity]]].
Qed.

(** X1.  The alternative method never returns [None] without a message:
    after its request it either returns a text, trimmed and not empty, and
    shows nothing, or returns [None] and shows exactly one message, an error
    or the warning of the empty transcript. *)
Theorem alternative_always_reports (env : Env) (f : UploadedFile) (w : World) :
  exists l,
    transcribe_audio_alternative env f w =
      (eval (transcribe_audio_alternative env f) w,
       logged w (HttpPost (alternative_request env f) :: l)) /\
    match eval (transcribe_audio_alternative env f) w with
    | Some t => l = [] /\ t <> [] /\ strip t = t
    | None => (exists m, l = [StError m]) \/ l = [StWarning empty_warning]
    end.
Proof.
  unfold eval. rewrite alternative_run.
  destruct (alternative_result_cases env
              (requests_post env (alternative_request env f))
              (logged w [HttpPost (alternative_request env f)]))
    as [(r & s & _ & _ & Hne & ->) | [(r & s & _ & _ & _ & ->) | (m & _ & ->)]];
    cbn [fst].
  - exists []. repeat split; auto. apply strip_idempotent.
  - exists [StWarning empty_warning]. rewrite logged_logged. split; auto.
  - exists [StError m]. rewrite logged_logged. split; eauto.
Qed.

Lemma alternative_result_value (env : Env) (o : PyResult Response) (w : World) :
  fst (alternative_result env o w) = primary_result o.
Proof.
  destruct (alternative_result_cases env o w)
    as [(r & s & -> & Ht & Hne & ->) | [(r & s & -> & Ht & He & ->) | (m & Ht & ->)]];
    cbn [fst].
  - rewrite (primary_result_transcript r s Ht).
    destruct (strip s); [congruence | reflexivity].
  - now rewrite (primary_result_transcript r s Ht), He.
  - symmetry. now apply in_trouble_primary_result.
Qed.

(** X2.  Given the same outcome of their request, the two methods return
    the same value: the alternative method returns a text exactly when the
    primary method, handed that outcome, would return it.  They differ only
    in what they show. *)
Theorem methods_read_alike (env : Env) (o : PyResult Response) (w : World) :
  eval (alternative_result env o) w = primary_result o.
Proof. apply alternative_result_value. Qed.

Lemma primary_result_iff (o : PyResult Response) (t : str) :
  primary_result o = Some t <->
  t <> [] /\ exists r s, o = Ret r /\ has_transcript r s /\ strip s = t.
Proof.
  split.
  - intros H. apply primary_result_Some in H as (r & s & Ho & Ht & Hs & Hne).
    split; [exact Hne|]. now exists r, s.
  - intros (Hne & r & s & -> & Ht & Hs).
    rewrite (primary_result_transcript r s Ht), Hs.
    destruct t; [congruence | reflexivity].
Qed.

Lemma primary_result_trimmed (o : PyResult Response) (t : str) :
  primary_result o = Some t -> t <> [] /\ strip t = t.
Proof.
  intros H. apply primary_result_iff in H as (Hne & r & s & _ & _ & <-).
  split; [exact Hne | apply strip_idempotent].
Qed.

(** The two ways the acquisition goes. *)
Lemma acquire_cases (env : Env) (f : UploadedFile) (w : World) :
  (exists t,
     primary_result (requests_post env (primary_request env f)) = Some t /\
     acquire env f w =
       (Some t, logged w [HttpPost (primary_request env f);
                          StatusText (lit "Primary method succeeded!")])) \/
  (primary_result (requests_post env (primary_request env f)) = None /\
   exists l,
     acquire env f w =
       (primary_result (requests_post env (alternative_request env f)),
        logged w (HttpPost (primary_request env f)
                  :: StatusText (lit "Primary method failed, trying alternative method...")
                  :: HttpPost (alternative_request env f) :: l)) /\
     posts l = [] /\ llm_calls l = []).
Proof.
  rewrite acquire_run.
  destruct (primary_result (requests_post env (primary_request env f)))
    as [t|] eqn:HA.
  - left. now exists t.
  - right. split; [reflexivity|]. rewrite alternative_run, logged_logged.
    rewrite <- (alternative_result_value env
                  (requests_post env (alternative_request env f))
                  (logged w ([HttpPost (primary_request env f);
                      StatusText (lit "Primary method failed, trying alternative method...")]
                     ++ [HttpPost (alternative_request env f)]))).
    destruct (alternative_result_cases env
                (requests_post env (alternative_request env f))
                (logged w ([HttpPost (primary_request env f);
                    StatusText (lit "Primary method failed, trying alternative method...")]
                   ++ [HttpPost (alternative_request env f)])))
      as [(r & s & _ & _ & _ & ->) | [(r & s & _ & _ & _ & ->) | (m & _ & ->)]];
      cbn [fst].
    + exists []. simpl app. repeat split; reflexivity.
    + exists [StWarning empty_warning]. rewrite logged_logged.
      repeat split; reflexivity.
    + exists [StError m]. rewrite logged_logged. repeat split; reflexivity.
Qed.

(** X3.  The acquisition returns a text exactly when the response to the
    primary request carries a transcript that is not empty once trimmed, or,
    the primary method having returned [None], the response to the
    alternative request does; the text is that transcript, trimmed. *)
Theorem acquire_some_iff (env : Env) (f : UploadedFile) (w : World) (t : str) :
  eval (acquire env f) w = Some t <->
  t <> [] /\
  ((exists r s, requests_post env (primary_request env f) = Ret r /\
                has_transcript r s /\ strip s = t) \/
   (eval (transcribe_audio_primary env f) w = None /\
    exists r s, requests_post env (alternative_request env f) = Ret r /\
                has_transcript r s /\ strip s = t)).
Proof.
  unfold eval. rewrite primary_run. cbn [fst].
  destruct (acquire_cases env f w) as [(t' & HA & ->) | (HA & l & -> & _)];
    cbn [fst]; rewrite HA.
  - split.
    + intros H. injection H as ->. apply primary_result_iff in HA as [Hne Hrs].
      split; [exact Hne | now left].
    + intros (Hne & [Hrs | [Hnone _]]); [|discriminate].
      assert (H : primary_result (requests_post env (primary_request env f)) = Some t)
        by (apply primary_result_iff; now split).
      congruence.
  - rewrite primary_result_iff. split.
    + intros (Hne & Hrs). split; [exact Hne | right; now split].
    + intros (Hne & [Hrs | [_ Hrs]]); [|now split].
      assert (H : primary_result (requests_post env (primary_request env f)) = Some t)
        by (apply primary_result_iff; now split).
      congruence.
Qed.

(** X3, after a primary request answered with 415. *)
Lemma acquire_some_iff_witness :
  eval (acquire env_415_hello clip) fresh = Some (lit "hello world").
Proof.
  apply (acquire_some_iff env_415_hello clip fresh (lit "hello world")).
  split; [discriminate|]. right. split; [vm_compute; reflexivity|].
  exists (ok_response (lit "hello world")), (lit "hello world").
  split; [reflexivity|]. split; [|vm_compute; reflexivity].
  split; [reflexivity|].
  exists (deepgram_body (JStr (lit "hello world"))). split; reflexivity.
Defined.

(* ================================================================== *)
(** ** How a run is put together *)
(* ================================================================== *)

Lemma logged_nil (w : World) : logged w [] = w.
Proof. destruct w as [s l]. unfold logged. simpl. now rewrite app_nil_r. Qed.

(** The value and the messages of the alternative method do not depend on
    the world it runs in. *)
Lemma alternative_result_uniform (env : Env) (o : PyResult Response) :
  exists l,
    (forall w, alternative_result env o w = (primary_result o, logged w l)) /\
    posts l = [] /\ llm_calls l = [].
Proof.
  destruct (alternative_result_cases env o fresh)
    as [(r & s & -> & Ht & Hne & _) | [(r & s & -> & Ht & He & _) | (m & Ht & _)]].
  - exists []. split; [|split; reflexivity]. intros w.
    rewrite (alternative_result_transcript env r s w Ht),
      (primary_result_transcript r s Ht), logged_nil.
    destruct (strip s); [congruence | reflexivity].
  - exists [StWarning empty_warning]. split; [|split; reflexivity]. intros w.
    now rewrite (alternative_result_transcript env r s w Ht),
      (primary_result_transcript r s Ht), He.
  - rewrite (in_trouble_primary_result o Ht). clear m.
    destruct o as [r|e].
    2:{ eexists. split; [intros w; reflexivity | split; reflexivity]. }
    unfold in_trouble, malformed in Ht. unfold alternative_result.
    destruct (status_code r =? 200)%Z; cbn [negb orb] in *.
    2:{ eexists. split; [intros w; reflexivity | split; reflexivity]. }
    destruct (json r) as [result|e]; cbn [py_bind].
    2:{ eexists. split; [intros w; reflexivity | split; reflexivity]. }
    destruct (strict_transcript result) as [t|e]; cbn [py_bind].
    2:{ eexists. split; [intros w; reflexivity | split; reflexivity]. }
    destruct t; try discriminate;
      (eexists; split; [intros w; reflexivity | split; reflexivity]).
Qed.

(** The value of the acquisition is the first of the two readings; its
    events are the requests, the status line and what the alternative method
    shows, whatever the world. *)
Lemma acquire_uniform (env : Env) (f : UploadedFile) :
  exists la,
    (forall w, acquire env f w =
       (match primary_result (requests_post env (primary_request env f)) with
        | Some t => Some t
        | None => primary_result (requests_post env (alternative_request env f))
        end, logged w la)) /\
    posts la =
      primary_request env f ::
      match primary_result (requests_post env (primary_request env f)) with
      | Some _ => []
      | None => [alternative_request env f]
      end /\
    llm_calls la = [].
Proof.
  destruct (primary_result (requests_post env (primary_request env f)))
    as [t|] eqn:HA.
  - eexists. split; [|split]; [intros w; rewrite acquire_run, HA; reflexivity | ..];
      reflexivity.
  - destruct (alternative_result_uniform env
                (requests_post env (alternative_request env f)))
      as (l & Hl & Hp & Hc).
    exists (HttpPost (primary_request env f)
            :: StatusText (lit "Primary method failed, trying alternative method...")
            :: HttpPost (alternative_request env f) :: l).
    split; [|split].
    + intros w. rewrite acquire_run, HA, alternative_run, Hl, !logged_logged.
      reflexivity.
    + cbn [posts flat_map app]. fold (posts l). now rewrite Hp.
    + cbn [llm_calls flat_map app]. fold (llm_calls l). exact Hc.
Qed.

(** The transcription part of a run: on a text the three keys of the session
    are set, on [None] the session stays as it is. *)
Lemma transcription_flow_run (env : Env) (f : UploadedFile) :
  exists l,
    (forall w, transcription_flow env f w =
       (tt, {| session :=
                 match eval (acquire env f) fresh with
                 | Some t => transcribed f t
                 | None => session w
                 end;
               log := log w ++ l |})) /\
    posts l =
      primary_request env f ::
      match primary_result (requests_post env (primary_request env f)) with
      | Some _ => []
      | None => [alternative_request env f]
      end /\
    llm_calls l = [].
Proof.
  destruct (acquire_uniform env f) as (la & Hacq & Hp & Hc).
  unfold eval. rewrite Hacq. cbn [fst].
  set (r := match primary_result (requests_post env (primary_request env f)) with
            | Some t => Some t
            | None => primary_result (requests_post env (alternative_request env f))
            end) in *.
  assert (Hr : forall t, r = Some t -> t <> []).
  { intros t Ht. unfold r in Ht.
    destruct (primary_result (requests_post env (primary_request env f))) eqn:HA.
    - injection Ht as ->. now apply primary_result_trimmed in HA.
    - now apply primary_result_trimmed in Ht. }
  destruct r as [[|c t]|] eqn:Er.
  - now elim (Hr [] eq_refl).
  - eexists. split; [|split].
    + intros w. unfold transcription_flow, bind.
      rewrite !emit_logged, logged_logged, Hacq. cbn [truthy_opt].
      unfold put_session. rewrite emit_logged. unfold logged. cbn [session log].
      rewrite <- !app_assoc. reflexivity.
    + rewrite !posts_app, Hp. cbn [posts flat_map app]. now rewrite ?app_nil_r.
    + rewrite !llm_calls_app, Hc. reflexivity.
  - eexists. split; [|split].
    + intros w. unfold transcription_flow, bind.
      rewrite !emit_logged, logged_logged, Hacq. cbn [truthy_opt].
      unfold emit, logged. cbn [session log fst snd].
      rewrite <- !app_assoc. reflexivity.
    + rewrite !posts_app, Hp. cbn [posts flat_map app]. now rewrite ?app_nil_r.
    + rewrite !llm_calls_app, Hc. reflexivity.
Qed.

Lemma with_history_logged (w : World) (l1 l2 : list Event) (h1 h2 : list Message) :
  with_history (logged (with_history (logged w l1) h1) l2) h2 =
  with_history (logged w (l1 ++ l2)) h2.
Proof. unfold with_history, logged. simpl. now rewrite app_assoc. Qed.

Lemma show_history_run (messages : list Message) (w : World) :
  show_history messages w = (tt, logged w (map shown messages)).
Proof.
  revert w. induction messages as [|m r IH]; intros w; simpl.
  - now rewrite logged_nil.
  - unfold bind. rewrite emit_logged, IH, logged_logged. reflexivity.
Qed.

Lemma posts_shown (messages : list Message) : posts (map shown messages) = [].
Proof. induction messages; simpl; auto. Qed.

Lemma llm_calls_shown (messages : list Message) :
  llm_calls (map shown messages) = [].
Proof. induction messages; simpl; auto. Qed.

(** A chat exchange leaves the history as it was, or extends it by one
    exchange; the language model is invoked at most once. *)
Lemma chat_turn_cases (env : Env) (p : str) (w : World) :
  exists l h',
    chat_turn env p w = (tt, with_history (logged w l) h') /\
    posts l = [] /\
    ((h' = history (session w) /\
      (llm_calls l = [] \/
       llm_calls l = [limit_history (history (session w) ++ [HumanMessage p])])) \/
     (exists c, h' = history (session w) ++ exchange (p, c) /\
        llm_calls l = [limit_history (history (session w) ++ [HumanMessage p])])).
Proof.
  rewrite chat_turn_run.
  set (h := history (session w)). set (h1 := h ++ [HumanMessage p]).
  set (said := ChatMessage (lit "user") p).
  assert (Hexc : forall e l1,
    posts l1 = [] ->
    exists l h',
      chat_except env e (with_history (logged w l1) h1)
        = (tt, with_history (logged w l) h') /\
      posts l = [] /\ h' = h /\ llm_calls l = llm_calls l1).
  { intros e l1 Hp1.
    destruct (chat_except_run env e (with_history (logged w l1) h1))
      as (l2 & -> & Hp2 & Hc2).
    exists (l1 ++ l2), h. cbn [with_history session history].
    unfold h1. rewrite pop_human_snoc, with_history_logged.
    rewrite posts_app, llm_calls_app, Hp1, Hp2, Hc2, !app_nil_r. auto. }
  destruct (ChatGoogleGenerativeAI env) as [u|e].
  - destruct (llm_invoke env (limit_history h1)) as [c|e].
    + eexists. eexists. split; [reflexivity|]. split; [reflexivity|].
      right. exists c. split; [|reflexivity].
      unfold h1, exchange. cbn [fst snd]. now rewrite <- app_assoc.
    + destruct (Hexc e [said; LlmInvoke (limit_history h1)] eq_refl)
        as (l & h' & -> & Hp & -> & Hc).
      exists l, h. split; [reflexivity|]. split; [exact Hp|]. left.
      split; [reflexivity|]. right. exact Hc.
  - destruct (Hexc e [said] eq_refl) as (l & h' & -> & Hp & -> & Hc).
    exists l, h. split; [reflexivity|]. split; [exact Hp|]. left.
    split; [reflexivity|]. left. exact Hc.
Qed.

Lemma transcript_and_chat_run (env : Env) (prompt : option str) (w : World) :
  transcript_and_chat env prompt w =
    match transcript (session w) with
    | Some (c :: t) =>
      match prompt with
      | Some (p0 :: p) =>
        chat_turn env (p0 :: p)
          (logged w (StWrite (c :: t)
                     :: map shown (skipn 1 (history (session w)))))
      | _ => (tt, logged w (StWrite (c :: t)
                            :: map shown (skipn 1 (history (session w)))))
      end
    | _ => (tt, w)
    end.
Proof.
  unfold transcript_and_chat, bind, get_session.
  destruct (transcript (session w)) as [[|c t]|]; cbn [truthy_opt]; try reflexivity.
  rewrite emit_logged, show_history_run, logged_logged. cbn [app].
  destruct prompt as [[|p0 p]|]; reflexivity.
Qed.

(** The part of a run after the upload: what is stored of the transcript
    stays, no request is made, the history is kept or extended by one
    exchange, and the language model is invoked at most once, and only with
    a transcript in the session and a chat input. *)
Lemma transcript_and_chat_cases (env : Env) (prompt : option str) (w : World) :
  exists l h',
    transcript_and_chat env prompt w = (tt, with_history (logged w l) h') /\
    posts l = [] /\
    (transcript (session w) = None -> l = []) /\
    (forall t, transcript (session w) = Some t -> t <> [] ->
       exists rest, l = StWrite t :: rest) /\
    ((h' = history (session w) /\
      (llm_calls l = [] \/
       exists p, prompt = Some p /\
         llm_calls l = [limit_history (history (session w) ++ [HumanMessage p])])) \/
     (exists p c, prompt = Some p /\
        h' = history (session w) ++ exchange (p, c) /\
        llm_calls l = [limit_history (history (session w) ++ [HumanMessage p])])).
Proof.
  rewrite transcript_and_chat_run.
  assert (Hidle : forall l0, posts l0 = [] -> llm_calls l0 = [] ->
    exists l h',
      (tt, logged w l0) = (tt, with_history (logged w l) h') /\
      posts l = [] /\ l = l0 /\
      ((h' = history (session w) /\
        (llm_calls l = [] \/
         exists p, prompt = Some p /\
           llm_calls l = [limit_history (history (session w) ++ [HumanMessage p])])) \/
       (exists p c, prompt = Some p /\
          h' = history (session w) ++ exchange (p, c) /\
          llm_calls l = [limit_history (history (session w) ++ [HumanMessage p])]))).
  { intros l0 Hp Hc. exists l0, (history (session w)).
    split; [|split; [exact Hp | split; [reflexivity | left; auto]]].
    f_equal. destruct w as [[h t n] lg]. reflexivity. }
  destruct (transcript (session w)) as [[|c t]|] eqn:Ht.
  - destruct (Hidle [] eq_refl eq_refl) as (l & h' & Heq & Hp & -> & Hh).
    exists [], h'. rewrite logged_nil in Heq. rewrite logged_nil.
    split; [exact Heq|]. split; [reflexivity|]. split; [auto|].
    split; [|exact Hh]. intros t Hs Hne. congruence.
  - set (l0 := StWrite (c :: t) :: map shown (skipn 1 (history (session w)))).
    assert (Hp0 : posts l0 = []) by (unfold l0; simpl; apply posts_shown).
    assert (Hc0 : llm_calls l0 = []) by (unfold l0; simpl; apply llm_calls_shown).
    destruct prompt as [[|p0 p]|].
    + destruct (Hidle l0 Hp0 Hc0) as (l & h' & Heq & Hp & -> & Hh).
      exists l0, h'. split; [exact Heq|]. split; [exact Hp|].
      split; [discriminate|]. split; [|exact Hh].
      intros t' Hs _. injection Hs as <-. now eexists.
    + destruct (chat_turn_cases env (p0 :: p) (logged w l0))
        as (l & h' & -> & Hp & Hh).
      exists (l0 ++ l), h'. cbn [logged session] in *.
      split.
      { unfold with_history, logged. simpl. now rewrite <- app_assoc. }
      rewrite posts_app, llm_calls_app, Hp0, Hc0, Hp. cbn [app].
      split; [reflexivity|]. split; [discriminate|].
      split; [intros t' Hs _; injection Hs as <-; now eexists|].
      destruct Hh as [[-> Hc] | (c0 & -> & Hc)].
      * left. split; [reflexivity|]. destruct Hc as [Hc | Hc]; [now left|].
        right. now exists (p0 :: p).
      * right. now exists (p0 :: p), c0.
    + destruct (Hidle l0 Hp0 Hc0) as (l & h' & Heq & Hp & -> & Hh).
      exists l0, h'. split; [exact Heq|]. split; [exact Hp|].
      split; [discriminate|]. split; [|exact Hh].
      intros t' Hs _. injection Hs as <-. now eexists.
  - destruct (Hidle [] eq_refl eq_refl) as (l & h' & Heq & Hp & -> & Hh).
    exists [], h'. rewrite logged_nil in Heq. rewrite logged_nil.
    split; [exact Heq|]. split; [reflexivity|]. split; [auto|].
    split; [|exact Hh]. intros t Hs Hne. congruence.
Qed.

(** A run with a file that passes the validation. *)
Lemma run_valid (env : Env) (f : UploadedFile) (prompt : option str) (w : World) :
  fst (validate_audio_file (Some f)) = true ->
  run env (Some f) prompt w =
    (Completed,
     exec (transcript_and_chat env prompt)
       (let w1 := logged w [StSuccess (lit "✅ " ++ snd (validate_audio_file (Some f)))] in
        if needs_transcription (session w) f
        then exec (transcription_flow env f) w1 else w1)).
Proof.
  intros Hvalid. unfold run, needs_transcription.
  destruct (validate_audio_file (Some f)) as [is_valid message].
  simpl in Hvalid. subst is_valid. cbn [negb snd].
  unfold bind at 1. rewrite emit_logged.
  unfold bind at 1, get_session. cbn [logged session].
  destruct (negb (is_some (transcript (session w)))
            || negb (option_str_eqb (last_uploaded_file (session w)) (Some (name f)))).
  - unfold bind, ret, exec.
    destruct (transcription_flow env f _) as [u w2]. cbn [snd].
    destruct (transcript_and_chat env prompt w2). reflexivity.
  - unfold bind, ret, exec.
    destruct (transcript_and_chat env prompt _). reflexivity.
Qed.

Lemma acquire_eval_any (env : Env) (f : UploadedFile) (w w' : World) :
  eval (acquire env f) w = eval (acquire env f) w'.
Proof.
  destruct (acquire_uniform env f) as (la & H & _). unfold eval.
  now rewrite !H.
Qed.

Lemma acquire_trimmed (env : Env) (f : UploadedFile) (w : World) (t : str) :
  eval (acquire env f) w = Some t -> t <> [] /\ strip t = t.
Proof.
  destruct (acquire_uniform env f) as (la & H & _). unfold eval.
  rewrite H. cbn [fst].
  destruct (primary_result (requests_post env (primary_request env f))) eqn:HA.
  - intros E. injection E as <-. now apply primary_result_trimmed in HA.
  - apply primary_result_trimmed.
Qed.

(** A run with a valid file, in one piece. *)
Lemma run_shape (env : Env) (f : UploadedFile) (prompt : option str) (w : World) :
  fst (validate_audio_file (Some f)) = true ->
  let s1 := after_upload env f (session w) in
  exists lt lc h',
    run env (Some f) prompt w =
      (Completed,
       {| session := {| history := h';
                        transcript := transcript s1;
                        last_uploaded_file := last_uploaded_file s1 |};
          log := log w ++ lt ++ lc |}) /\
    posts lt = requests_of env f (session w) /\ llm_calls lt = [] /\
    posts lc = [] /\
    (transcript s1 = None -> lc = []) /\
    (forall t, transcript s1 = Some t -> t <> [] ->
       exists rest, lc = StWrite t :: rest) /\
    ((h' = history s1 /\
      (llm_calls lc = [] \/
       exists p, prompt = Some p /\
         llm_calls lc = [limit_history (history s1 ++ [HumanMessage p])])) \/
     (exists p c, prompt = Some p /\
        h' = history s1 ++ exchange (p, c) /\
        llm_calls lc = [limit_history (history s1 ++ [HumanMessage p])])).
Proof.
  intros Hvalid s1. rewrite (run_valid env f prompt w Hvalid). cbv zeta.
  set (ok := StSuccess (lit "✅ " ++ snd (validate_audio_file (Some f)))).
  assert (Hmid : exists lt,
    (if needs_transcription (session w) f
     then exec (transcription_flow env f) (logged w [ok]) else logged w [ok])
    = {| session := s1; log := log w ++ lt |} /\
    posts lt = requests_of env f (session w) /\ llm_calls lt = []).
  { unfold s1, after_upload, requests_of.
    destruct (needs_transcription (session w) f).
    - destruct (transcription_flow_run env f) as (l & Hl & Hp & Hc).
      exists (ok :: l). unfold exec. rewrite Hl. cbn [snd logged session log].
      split; [now rewrite <- app_assoc|].
      split; [|exact Hc]. cbn [posts flat_map app]. fold (posts l).
      rewrite Hp. unfold eval. rewrite primary_run. reflexivity.
    - exists [ok]. split; [reflexivity | split; reflexivity]. }
  destruct Hmid as (lt & -> & Hpt & Hct).
  destruct (transcript_and_chat_cases env prompt
              {| session := s1; log := log w ++ lt |})
    as (lc & h' & Hrun & Hpc & Hnone & Hshown & Hchat).
  exists lt, lc, h'. unfold exec. rewrite Hrun. cbn [snd session] in *.
  split.
  { unfold with_history, logged. cbn [session log]. now rewrite <- app_assoc. }
  repeat (split; [assumption|]). exact Hchat.
Qed.

(* ================================================================== *)
(** ** What the session keeps *)
(* ================================================================== *)

Lemma holds_here (t post : str) : holds (t ++ post) t.
Proof. now exists [], post. Qed.

Lemma holds_refl (t : str) : holds t t.
Proof. exists [], []. simpl. now rewrite app_nil_r. Qed.

Lemma holds_app_l (pre s t : str) : holds s t -> holds (pre ++ s) t.
Proof.
  intros (a & b & ->). exists (pre ++ a), b. now rewrite <- app_assoc.
Qed.

Lemma context_msg_holds (t : str) :
  exists sys, context_msg t = SystemMessage sys /\ holds sys t.
Proof.
  unfold context_msg, lines. cbn [join]. eexists. split; [reflexivity|].
  do 6 apply holds_app_l. apply holds_here.
Qed.

Lemma cleared_msg_holds (t : str) :
  exists sys, cleared_msg t = SystemMessage sys /\ holds sys t.
Proof.
  unfold cleared_msg, lines. cbn [join]. eexists. split; [reflexivity|].
  do 6 apply holds_app_l. apply holds_refl.
Qed.

Lemma session_ok_initial : session_ok initial_session.
Proof.
  split; [|split].
  - eexists. exists []. split; [reflexivity|]. discriminate.
  - discriminate.
  - reflexivity.
Qed.

Lemma session_ok_transcribed (f : UploadedFile) (t : str) :
  t <> [] -> strip t = t -> session_ok (transcribed f t).
Proof.
  intros Hne Hs. destruct (context_msg_holds t) as (sys & Hsys & Hh).
  split; [|split].
  - exists sys, []. cbn [transcribed history transcript flat_map].
    split; [now rewrite Hsys|]. intros t' E. injection E as <-. exact Hh.
  - intros t' E. injection E as <-. now split.
  - reflexivity.
Qed.

Lemma session_ok_history (s : Session) (h' : list Message) :
  session_ok s ->
  h' = history s \/ (exists p c, h' = history s ++ exchange (p, c)) ->
  session_ok {| history := h';
                transcript := transcript s;
                last_uploaded_file := last_uploaded_file s |}.
Proof.
  intros ((sys & xs & Hh & Hsys) & Htrim & Hfile) Hh'.
  split; [|split]; cbn [history transcript last_uploaded_file]; auto.
  destruct Hh' as [-> | (p & c & ->)].
  - now exists sys, xs.
  - exists sys, (xs ++ [(p, c)]). split; [|exact Hsys].
    rewrite Hh, flat_map_app. cbn [flat_map]. now rewrite app_nil_r.
Qed.

Lemma session_ok_after_upload (env : Env) (f : UploadedFile) (s : Session) :
  session_ok s -> session_ok (after_upload env f s).
Proof.
  intros Hok. unfold after_upload.
  destruct (needs_transcription s f); [|exact Hok].
  destruct (eval (acquire env f) fresh) as [t|] eqn:Ht; [|exact Hok].
  apply acquire_trimmed in Ht as [Hne Hs]. now apply session_ok_transcribed.
Qed.

Lemma run_session_ok (env : Env) (uploaded_file : option UploadedFile)
    (prompt : option str) (w : World) :
  session_ok (session w) ->
  session_ok (session (exec (run env uploaded_file prompt) w)).
Proof.
  intros Hok. destruct uploaded_file as [f|]; [|exact Hok].
  destruct (fst (validate_audio_file (Some f))) eqn:Hvalid.
  - destruct (run_shape env f prompt w Hvalid)
      as (lt & lc & h' & Hrun & _ & _ & _ & _ & _ & Hchat).
    unfold exec. rewrite Hrun. cbn [snd session].
    apply session_ok_history; [now apply session_ok_after_upload|].
    destruct Hchat as [[-> _] | (p & c & _ & -> & _)]; [now left|].
    right. now exists p, c.
  - unfold exec. rewrite (run_rejected env f prompt w Hvalid). exact Hok.
Qed.

Lemma clear_chat_history_run (w : World) :
  clear_chat_history w =
    match transcript (session w) with
    | Some t =>
      (tt, with_history
             (logged w [StSuccess (lit "Chat history cleared! Transcript preserved.")])
             [cleared_msg t])
    | None => (tt, w)
    end.
Proof.
  unfold clear_chat_history, bind, get_session.
  destruct (transcript (session w)); reflexivity.
Qed.

Lemma clear_session_ok (w : World) :
  session_ok (session w) -> session_ok (session (exec clear_chat_history w)).
Proof.
  intros Hok. unfold exec. rewrite clear_chat_history_run.
  destruct (transcript (session w)) as [t|] eqn:Ht; [|exact Hok].
  destruct Hok as (_ & Htrim & Hfile).
  destruct (cleared_msg_holds t) as (sys & Hsys & Hh).
  split; [|split]; cbn [snd with_history logged session history transcript
                         last_uploaded_file]; auto.
  exists sys, []. split; [now rewrite Hsys|].
  intros t' E. rewrite Ht in E. injection E as <-. exact Hh.
Qed.

(** X4.  Every part of a run keeps the session in order: the history is a
    system message followed by whole exchanges (a user message and its
    reply), the system message holds the stored transcript word for word,
    the stored transcript is trimmed and not empty, and the name of the
    transcribed file is stored exactly when a transcript is.  This holds of
    the initial session and is kept by the page (key checks, upload,
    transcription, chat) and by the sidebar with its two buttons. *)
Theorem session_ok_kept (env : Env) (GEMINI_API_KEY : str)
    (uploaded_file : option UploadedFile) (prompt : option str)
    (clear_clicked new_clicked : bool) (w : World)
    (Hok : session_ok (session w)) :
  session_ok initial_session /\
  session_ok (session (exec (page env GEMINI_API_KEY uploaded_file prompt) w)) /\
  session_ok (session (exec (sidebar uploaded_file clear_clicked new_clicked) w)).
Proof.
  split; [apply session_ok_initial|]. split.
  - unfold page, check_keys, exec.
    destruct (nonempty (DEEPGRAM_API_KEY env)); cbn [negb]; [|exact Hok].
    destruct (nonempty GEMINI_API_KEY); cbn [negb]; [|exact Hok].
    unfold bind, ret. now apply run_session_ok.
  - unfold sidebar. rewrite !exec_bind.
    set (w1 := exec (emit (StWarning api_limits_warning)) _).
    assert (Hw1 : session w1 = session w).
    { unfold w1. destruct uploaded_file; reflexivity. }
    assert (Hok1 : session_ok (session w1)) by now rewrite Hw1.
    destruct clear_clicked.
    + rewrite exec_bind. now apply clear_session_ok.
    + destruct new_clicked; [|exact Hok1].
      rewrite exec_bind. apply session_ok_initial.
Qed.

(** X4, in the session of three exchanges, with another upload and a
    question. *)
Lemma session_ok_kept_witness :
  session_ok (session chatting) /\
  session_ok (session (exec (page env_hello (lit "AIza") (Some other_clip)
                               (Some (lit "Who speaks?"))) chatting)).
Proof.
  assert (Hok : session_ok (session chatting)).
  { destruct (context_msg_holds (lit "hello world")) as (sys & Hsys & Hh).
    split; [|split].
    - exists sys,
        [ (lit "What is said?", lit "It says hello.");
          (lit "In which language?", lit "English.");
          (lit "How many words?", lit "Two.") ].
      split.
      + cbn [chatting session history flat_map exchange app fst snd].
        now rewrite Hsys.
      + intros t E. injection E as <-. exact Hh.
    - intros t E. injection E as <-. split; [discriminate|].
      vm_compute. reflexivity.
    - reflexivity. }
  split; [exact Hok|].
  apply (session_ok_kept env_hello (lit "AIza") (Some other_clip)
           (Some (lit "Who speaks?")) false false chatting Hok).
Defined.

(* ================================================================== *)
(** ** What a run asks of the provider and of the language model *)
(* ================================================================== *)

Lemma limit_history_shape (m x : Message) (r : list Message) :
  exists mid,
    limit_history (m :: r ++ [x]) = m :: mid ++ [x] /\
    (List.length mid <= 3)%nat.
Proof.
  unfold limit_history. cbn [List.length]. rewrite length_app. cbn [List.length].
  destruct (5 <? S (List.length r + 1))%nat eqn:E.
  - apply Nat.ltb_lt in E. unfold last_n. cbn [firstn List.length app].
    rewrite length_app. cbn [List.length].
    replace (S (List.length r + 1) - 4)%nat with (S (List.length r - 3)) by lia.
    cbn [skipn]. rewrite skipn_app.
    replace (List.length r - 3 - List.length r)%nat with 0%nat by lia.
    cbn [skipn]. exists (skipn (List.length r - 3) r).
    split; [reflexivity|]. rewrite length_skipn. lia.
  - apply Nat.ltb_ge in E. exists r. split; [reflexivity | lia].
Qed.

(** X5.  Whatever a run does, it invokes the language model at most once,
    and only with a transcript stored in the session: the messages given
    then start with the system message, which holds that transcript word for
    word, and end with the user's question, with at most three messages in
    between. *)
Theorem llm_given_transcript (env : Env) (uploaded_file : option UploadedFile)
    (prompt : option str) (w : World)
    (Hok : session_ok (session w)) :
  llm_calls (log (exec (run env uploaded_file prompt) w)) = llm_calls (log w) \/
  exists p t sys mid,
    prompt = Some p /\
    transcript (session (exec (run env uploaded_file prompt) w)) = Some t /\
    holds sys t /\ (List.length mid <= 3)%nat /\
    llm_calls (log (exec (run env uploaded_file prompt) w)) =
      llm_calls (log w) ++ [SystemMessage sys :: mid ++ [HumanMessage p]].
Proof.
  destruct uploaded_file as [f|]; [|now left].
  destruct (fst (validate_audio_file (Some f))) eqn:Hvalid.
  2:{ left. unfold exec. rewrite (run_rejected env f prompt w Hvalid).
      cbn [snd logged log]. rewrite llm_calls_app. cbn. now rewrite app_nil_r. }
  destruct (run_shape env f prompt w Hvalid)
    as (lt & lc & h' & Hrun & _ & Hct & _ & Hnone & _ & Hchat).
  pose proof (session_ok_after_upload env f (session w) Hok) as Hok1.
  set (s1 := after_upload env f (session w)) in *.
  unfold exec. rewrite Hrun. cbn [snd session log transcript].
  rewrite !llm_calls_app, Hct. cbn [app].
  assert (Hcall : forall p,
    llm_calls lc = [limit_history (history s1 ++ [HumanMessage p])] ->
    exists t sys mid,
      transcript s1 = Some t /\ holds sys t /\ (List.length mid <= 3)%nat /\
      llm_calls lc = [SystemMessage sys :: mid ++ [HumanMessage p]]).
  { intros p Hc. destruct (transcript s1) as [t|] eqn:Ht.
    2:{ rewrite (Hnone eq_refl) in Hc. discriminate. }
    destruct Hok1 as ((sys & xs & Hh & Hsys) & _).
    destruct (limit_history_shape (SystemMessage sys) (HumanMessage p)
                (flat_map exchange xs)) as (mid & Hmid & Hlen).
    exists t, sys, mid. split; [reflexivity|]. split; [now apply Hsys|].
    split; [exact Hlen|]. rewrite Hc, Hh. cbn [app]. now rewrite Hmid. }
  destruct Hchat as [[_ [Hc | (p & Hp & Hc)]] | (p & c & Hp & _ & Hc)].
  - left. rewrite Hc. now rewrite app_nil_r.
  - right. destruct (Hcall p Hc) as (t & sys & mid & Ht & Hh & Hlen & Hl).
    exists p, t, sys, mid. rewrite Hl. auto.
  - right. destruct (Hcall p Hc) as (t & sys & mid & Ht & Hh & Hlen & Hl).
    exists p, t, sys, mid. rewrite Hl. auto.
Qed.

(** X6.  A run makes requests only for a file that passes the validation
    and needs transcription (no transcript stored, or another file name
    than the stored one): then it sends the primary request, followed by the
    alternative request exactly when the primary method returned [None], and
    nothing else. *)
Theorem run_requests (env : Env) (uploaded_file : option UploadedFile)
    (prompt : option str) (w : World) :
  posts (log (exec (run env uploaded_file prompt) w)) =
    posts (log w) ++
    match uploaded_file with
    | Some f =>
      if fst (validate_audio_file (Some f)) && needs_transcription (session w) f
      then primary_request env f ::
           match eval (transcribe_audio_primary env f) w with
           | Some _ => []
           | None => [alternative_request env f]
           end
      else []
    | None => []
    end.
Proof.
  destruct uploaded_file as [f|]; [|cbn; now rewrite app_nil_r].
  destruct (fst (validate_audio_file (Some f))) eqn:Hvalid; cbn [andb].
  2:{ unfold exec. rewrite (run_rejected env f prompt w Hvalid).
      cbn [snd logged log]. rewrite posts_app. reflexivity. }
  destruct (run_shape env f prompt w Hvalid)
    as (lt & lc & h' & Hrun & Hpt & _ & Hpc & _).
  unfold exec. rewrite Hrun. cbn [snd log].
  rewrite !posts_app, Hpt, Hpc, app_nil_r. unfold requests_of.
  unfold eval. now rewrite !primary_run.
Qed.

(** X7.  When a file is to be transcribed and both methods come back
    without a text, the run leaves the stored transcript and file name as
    they were, so the file still needs transcription in the next run; a
    transcript stored before, of another file, is the one still shown.
    Without a chat input the whole session is unchanged. *)
Theorem failed_transcription_keeps (env : Env) (f : UploadedFile)
    (prompt : option str) (w : World)
    (Hvalid : fst (validate_audio_file (Some f)) = true)
    (Hneeds : needs_transcription (session w) f = true)
    (Hfail : eval (acquire env f) w = None) :
  let w' := exec (run env (Some f) prompt) w in
  transcript (session w') = transcript (session w) /\
  last_uploaded_file (session w') = last_uploaded_file (session w) /\
  needs_transcription (session w') f = true /\
  (prompt = None -> session w' = session w) /\
  (forall t, transcript (session w) = Some t -> t <> [] ->
     In (StWrite t) (log w')).
Proof.
  destruct (run_shape env f prompt w Hvalid)
    as (lt & lc & h' & Hrun & _ & _ & _ & _ & Hshown & Hchat).
  unfold after_upload in *. rewrite Hneeds in *.
  rewrite (acquire_eval_any env f fresh w), Hfail in *.
  cbv zeta. unfold exec. rewrite Hrun. cbn [snd session log transcript
                                            last_uploaded_file].
  split; [reflexivity|]. split; [reflexivity|]. split; [exact Hneeds|]. split.
  - intros ->. destruct Hchat as [[-> _] | (p & c & Hp & _)]; [|discriminate].
    now destruct (session w).
  - intros t Ht Hne. destruct (Hshown t Ht Hne) as (rest & ->).
    apply in_or_app. right. apply in_or_app. right. now left.
Qed.

(** X8.  When a file is to be transcribed and a text comes back, the run
    stores the text and the file name and replaces the history by the system
    message made of the text: what was said before is dropped.  The text is
    shown, the file no longer needs transcription, and a question asked in
    the same run is the only exchange of the new history. *)
Theorem fresh_transcription_replaces (env : Env) (f : UploadedFile)
    (prompt : option str) (w : World) (t : str)
    (Hvalid : fst (validate_audio_file (Some f)) = true)
    (Hneeds : needs_transcription (session w) f = true)
    (Htext : eval (acquire env f) w = Some t) :
  let w' := exec (run env (Some f) prompt) w in
  transcript (session w') = Some t /\
  last_uploaded_file (session w') = Some (name f) /\
  needs_transcription (session w') f = false /\
  In (StWrite t) (log w') /\
  (history (session w') = [context_msg t] \/
   exists p c, prompt = Some p /\
     history (session w') = [context_msg t; HumanMessage p; AIMessage c]).
Proof.
  destruct (run_shape env f prompt w Hvalid)
    as (lt & lc & h' & Hrun & _ & _ & _ & _ & Hshown & Hchat).
  unfold after_upload in *. rewrite Hneeds in *.
  rewrite (acquire_eval_any env f fresh w), Htext in *.
  cbn [transcribed history transcript last_uploaded_file] in *.
  cbv zeta. unfold exec. rewrite Hrun. cbn [snd session log transcript
                                            last_uploaded_file history].
  split; [reflexivity|]. split; [reflexivity|]. split; [|split].
  - unfold needs_transcription. cbn [transcript last_uploaded_file is_some
                                     option_str_eqb negb orb].
    now rewrite eqb_refl.
  - destruct (acquire_trimmed env f w t Htext) as [Hne _].
    destruct (Hshown t eq_refl Hne) as (rest & ->).
    apply in_or_app. right. apply in_or_app. right. now left.
  - destruct Hchat as [[-> _] | (p & c & Hp & -> & _)]; [now left|].
    right. now exists p, c.
Qed.

Lemma chatting_ok : session_ok (session chatting).
Proof.
  destruct (context_msg_holds (lit "hello world")) as (sys & Hsys & Hh).
  split; [|split].
  - exists sys,
      [ (lit "What is said?", lit "It says hello.");
        (lit "In which language?", lit "English.");
        (lit "How many words?", lit "Two.") ].
    split.
    + cbn [chatting session history flat_map exchange app fst snd].
      now rewrite Hsys.
    + intros t E. injection E as <-. exact Hh.
  - intros t E. injection E as <-. split; [discriminate|].
    vm_compute. reflexivity.
  - reflexivity.
Qed.

(** X5, for a question in the session of three exchanges. *)
Lemma llm_given_transcript_witness :
  session_ok (session chatting) /\
  (llm_calls (log (exec (run env_hello (Some other_clip)
                           (Some (lit "Who speaks?"))) chatting))
     = llm_calls (log chatting) \/
   exists p t sys mid,
     Some (lit "Who speaks?") = Some p /\
     transcript (session (exec (run env_hello (Some other_clip)
                                  (Some (lit "Who speaks?"))) chatting)) = Some t /\
     holds sys t /\ (List.length mid <= 3)%nat /\
     llm_calls (log (exec (run env_hello (Some other_clip)
                             (Some (lit "Who speaks?"))) chatting)) =
       llm_calls (log chatting) ++ [SystemMessage sys :: mid ++ [HumanMessage p]]).
Proof.
  split; [exact chatting_ok|].
  exact (llm_given_transcript env_hello (Some other_clip)
           (Some (lit "Who speaks?")) chatting chatting_ok).
Defined.

(** X7, at a provider that resets the primary request and answers the
    alternative one with status 500. *)
Lemma failed_transcription_keeps_witness :
  fst (validate_audio_file (Some clip)) = true /\
  needs_transcription (session fresh) clip = true /\
  eval (acquire env_reset_500 clip) fresh = None /\
  session (exec (run env_reset_500 (Some clip) None) fresh) = session fresh.
Proof.
  assert (Hvalid : fst (validate_audio_file (Some clip)) = true)
    by (vm_compute; reflexivity).
  assert (Hneeds : needs_transcription (session fresh) clip = true)
    by reflexivity.
  assert (Hfail : eval (acquire env_reset_500 clip) fresh = None)
    by (vm_compute; reflexivity).
  split; [exact Hvalid|]. split; [exact Hneeds|]. split; [exact Hfail|].
  pose proof (failed_transcription_keeps env_reset_500 clip None fresh
                Hvalid Hneeds Hfail) as H.
  cbv zeta in H. destruct H as (_ & _ & _ & H & _). exact (H eq_refl).
Defined.

(** X8, at a provider that answers the primary request with a transcript. *)
Lemma fresh_transcription_replaces_witness :
  fst (validate_audio_file (Some clip)) = true /\
  needs_transcription (session chatting) clip_bin = true /\
  eval (acquire env_hello clip_bin) chatting = Some (lit "hello world") /\
  history (session (exec (run env_hello (Some clip_bin) None) chatting))
    = [context_msg (lit "hello world")] /\
  last_uploaded_file (session (exec (run env_hello (Some clip_bin) None) chatting))
    = Some (lit "clip.bin").
Proof.
  assert (Hvalid : fst (validate_audio_file (Some clip_bin)) = true)
    by (vm_compute; reflexivity).
  assert (Hneeds : needs_transcription (session chatting) clip_bin = true)
    by (vm_compute; reflexivity).
  assert (Htext : eval (acquire env_hello clip_bin) chatting = Some (lit "hello world"))
    by (vm_compute; reflexivity).
  pose proof (fresh_transcription_replaces env_hello clip_bin None chatting
                (lit "hello world") Hvalid Hneeds Htext) as H.
  cbv zeta in H. destruct H as (_ & Hfile & _ & _ & Hh).
  split; [vm_compute; reflexivity|]. split; [exact Hneeds|].
  split; [exact Htext|]. split; [|exact Hfile].
  destruct Hh as [Hh | (p & c & Hp & _)]; [exact Hh | discriminate].
Defined.

(* ================================================================== *)
(** ** The buttons of the sidebar *)
(* ================================================================== *)

Lemma sidebar_head_run (uploaded_file : option UploadedFile) (w : World) :
  exists l,
    (match uploaded_file with
     | Some f => emit (StInfo (lit "**" ++ name f ++ lit "**" ++ nl
                               ++ fmt_mb (size_of f) ++ lit " MB"))
     | None => ret tt
     end w = (tt, logged w l)) /\ posts l = [] /\ llm_calls l = [].
Proof.
  destruct uploaded_file as [f|].
  - eexists. split; [apply emit_logged | split; reflexivity].
  - exists []. rewrite logged_nil. split; [reflexivity | split; reflexivity].
Qed.

Lemma sidebar_run (uploaded_file : option UploadedFile)
    (clear_clicked new_clicked : bool) (w : World) :
  exists l,
    posts l = [] /\ llm_calls l = [] /\
    sidebar uploaded_file clear_clicked new_clicked w =
      if clear_clicked then
        (Rerun, exec clear_chat_history (logged w l))
      else if new_clicked then
        (Rerun, exec new_session (logged w l))
      else
        (Shown (if (1 <? List.length (history (session w)))%nat
                then Some (chat_export (history (session w))) else None),
         logged w l).
Proof.
  destruct (sidebar_head_run uploaded_file w) as (l0 & Hl0 & Hp0 & Hc0).
  exists (l0 ++ [StWarning api_limits_warning]).
  rewrite posts_app, llm_calls_app, Hp0, Hc0.
  split; [reflexivity|]. split; [reflexivity|].
  unfold sidebar. unfold bind at 1. rewrite Hl0.
  unfold bind at 1. rewrite emit_logged, logged_logged.
  destruct clear_clicked.
  - unfold bind, ret, exec. now destruct (clear_chat_history _).
  - destruct new_clicked.
    + unfold bind, ret, exec. now destruct (new_session _).
    + reflexivity.
Qed.

(** X9.  The button [Clear Chat History] ends the run with a rerun.  With
    a transcript in the session it replaces the history by one system
    message that holds the transcript and keeps the transcript and the file
    name, so a following run with the file of that name makes no request;
    without a transcript it changes nothing in the session. *)
Theorem clear_chat_keeps_transcript (uploaded_file : option UploadedFile)
    (new_clicked : bool) (w : World) :
  let w' := exec (sidebar uploaded_file true new_clicked) w in
  eval (sidebar uploaded_file true new_clicked) w = Rerun /\
  match transcript (session w) with
  | None => session w' = session w
  | Some t =>
    session w' = {| history := [cleared_msg t];
                    transcript := Some t;
                    last_uploaded_file := last_uploaded_file (session w) |} /\
    (exists sys, cleared_msg t = SystemMessage sys /\ holds sys t) /\
    forall (env : Env) (f : UploadedFile) (prompt : option str),
      last_uploaded_file (session w) = Some (name f) ->
      fst (validate_audio_file (Some f)) = true ->
      posts (log (exec (run env (Some f) prompt) w')) = posts (log w)
  end.
Proof.
  destruct (sidebar_run uploaded_file true new_clicked w) as (l & Hp & _ & Hrun).
  cbv zeta. unfold eval, exec. rewrite Hrun. cbn [fst snd].
  split; [reflexivity|].
  unfold exec. rewrite clear_chat_history_run. cbn [logged session].
  destruct (transcript (session w)) as [t|] eqn:Ht; [|reflexivity].
  cbn [snd with_history logged session transcript last_uploaded_file].
  split; [now rewrite Ht|]. split; [apply cleared_msg_holds|].
  intros env f prompt Hname Hvalid.
  match goal with |- context [run env (Some f) prompt ?W] =>
    destruct (run_shape env f prompt W Hvalid)
      as (lt & lc & h' & Hr & Hpt & _ & Hpc & _)
  end.
  rewrite Hr. cbn [snd log with_history logged session].
  rewrite !posts_app, Hpt, Hpc, Hp. unfold requests_of, needs_transcription.
  cbn [with_history logged session transcript last_uploaded_file].
  rewrite Ht, Hname. cbn [is_some option_str_eqb negb orb].
  rewrite eqb_refl. cbn [negb posts flat_map app]. now rewrite !app_nil_r.
Qed.

(** X10.  The button [New Session] ends the run with a rerun and leaves
    the initial session: no transcript, no file name, the first system
    message alone.  In the run that follows every file that passes the
    validation is transcribed, also the one transcribed before: the primary
    request is sent. *)
Theorem new_session_restarts (uploaded_file : option UploadedFile) (w : World) :
  let w' := exec (sidebar uploaded_file false true) w in
  eval (sidebar uploaded_file false true) w = Rerun /\
  session w' = initial_session /\
  forall (env : Env) (f : UploadedFile) (prompt : option str),
    fst (validate_audio_file (Some f)) = true ->
    exists rest,
      posts (log (exec (run env (Some f) prompt) w')) =
        posts (log w) ++ primary_request env f :: rest.
Proof.
  destruct (sidebar_run uploaded_file false true w) as (l & Hp & _ & Hrun).
  cbv zeta. unfold eval, exec. rewrite Hrun. cbn [fst snd].
  assert (Hw' : exec new_session (logged w l) =
                {| session := initial_session;
                   log := log w ++ l ++ [StSuccess (lit "New session started!")] |}).
  { unfold exec, new_session, bind, put_session, emit, logged.
    cbn [snd fst log session]. now rewrite <- app_assoc. }
  rewrite Hw'. cbn [session].
  split; [reflexivity|]. split; [reflexivity|].
  intros env f prompt Hvalid.
  match goal with |- context [run env (Some f) prompt ?W] =>
    destruct (run_shape env f prompt W Hvalid)
      as (lt & lc & h' & Hr & Hpt & _ & Hpc & _)
  end.
  rewrite Hr. cbn [snd log session] in *.
  rewrite !posts_app, Hpt, Hpc, Hp. unfold requests_of, needs_transcription.
  cbn [initial_session transcript is_some negb orb app posts flat_map].
  eexists. now rewrite !app_nil_r.
Qed.

(* ================================================================== *)
(** ** The export of the chat *)
(* ================================================================== *)

Lemma chat_export_exchanges (sys : Message) (xs : list (str * str)) :
  chat_export (sys :: flat_map exchange xs) = flat_map exported xs.
Proof.
  unfold chat_export. cbn [skipn].
  induction xs as [|[q a] xs IH]; [reflexivity|].
  cbn [flat_map exchange app fst snd]. rewrite IH.
  unfold exported, role. cbn [is_HumanMessage content fst snd].
  now rewrite <- !app_assoc.
Qed.

Lemma length_exchanges (xs : list (str * str)) :
  List.length (flat_map exchange xs) = (2 * List.length xs)%nat.
Proof. induction xs as [|x xs IH]; simpl in *; lia. Qed.

(** X11.  In a session kept in order the sidebar, with no button clicked,
    leaves the session as it is and offers the export exactly when there is
    at least one exchange.  The export lists the exchanges in order, each as
    [User: question] and [Assistant: reply] followed by an empty line; the
    system message, and so the transcript, is not part of it.  The number of
    chat messages of the debug panel is twice the number of exchanges. *)
Theorem export_lists_exchanges (uploaded_file : option UploadedFile) (w : World)
    (Hok : session_ok (session w)) :
  session (exec (sidebar uploaded_file false false) w) = session w /\
  exists sys xs,
    history (session w) = SystemMessage sys :: flat_map exchange xs /\
    chat_export (history (session w)) = flat_map exported xs /\
    chat_messages (history (session w)) = (2 * Z.of_nat (List.length xs))%Z /\
    eval (sidebar uploaded_file false false) w =
      Shown (match xs with
             | [] => None
             | _ :: _ => Some (flat_map exported xs)
             end).
Proof.
  destruct (sidebar_run uploaded_file false false w) as (l & _ & _ & Hrun).
  unfold eval, exec. rewrite Hrun. cbn [fst snd logged session].
  split; [reflexivity|].
  destruct Hok as ((sys & xs & Hh & _) & _).
  exists sys, xs. rewrite Hh, chat_export_exchanges.
  split; [reflexivity|]. split; [reflexivity|]. split.
  - unfold chat_messages. cbn [List.length]. rewrite length_exchanges. lia.
  - cbn [List.length]. rewrite length_exchanges.
    destruct xs as [|x xs]; reflexivity.
Qed.

(** X11, in the session of three exchanges. *)
Lemma export_lists_exchanges_witness :
  session_ok (session chatting) /\
  session (exec (sidebar (Some clip) false false) chatting) = session chatting.
Proof.
  split; [exact chatting_ok|].
  exact (proj1 (export_lists_exchanges (Some clip) chatting chatting_ok)).
Defined.

Example export_example :
  eval (sidebar (Some clip) false false) chatting =
    Shown (Some (lines
      [ lit "User: What is said?"; [];
        lit "Assistant: It says hello."; [];
        lit "User: In which language?"; [];
        lit "Assistant: English."; [];
        lit "User: How many words?"; [];
        lit "Assistant: Two."; []; [] ])).
Proof. vm_compute. reflexivity. Qed.

(* ================================================================== *)
(** ** The command-line script on a body it can read, and on one it cannot *)
(* ================================================================== *)









Example cli_no_channels_example :
  eval (cli_main env_no_channels None (getvalue clip)) fresh
    = Exc (IndexError TList).
Proof. vm_compute. reflexivity. Qed.

(* ================================================================== *)
(** ** The key checks *)
(* ================================================================== *)

(** X14.  When one of the two keys is missing the page shows one error and
    stops: the session is untouched, no request is made and the language
    model is not invoked, whatever was uploaded or asked.  The Deepgram key
    is looked at first.  With both keys the page is the upload and chat
    part. *)
Theorem missing_key_stops (env : Env) (GEMINI_API_KEY : str)
    (uploaded_file : option UploadedFile) (prompt : option str) (w : World) :
  (DEEPGRAM_API_KEY env = [] ->
   page env GEMINI_API_KEY uploaded_file prompt w =
     (Stopped,
      logged w [StError (lit "❌ Missing Deepgram API Key in .env file. Please add DEEPGRAM_API_KEY to your .env file.")])) /\
  (DEEPGRAM_API_KEY env <> [] -> GEMINI_API_KEY = [] ->
   page env GEMINI_API_KEY uploaded_file prompt w =
     (Stopped,
      logged w [StError (lit "❌ Missing Gemini API Key in .env file. Please add GEMINI_API_KEY to your .env file.")])) /\
  (DEEPGRAM_API_KEY env <> [] -> GEMINI_API_KEY <> [] ->
   page env GEMINI_API_KEY uploaded_file prompt w =
     run env uploaded_file prompt w) /\
  (DEEPGRAM_API_KEY env = [] \/ GEMINI_API_KEY = [] ->
   eval (page env GEMINI_API_KEY uploaded_file prompt) w = Stopped /\
   session (exec (page env GEMINI_API_KEY uploaded_file prompt) w) = session w /\
   posts (log (exec (page env GEMINI_API_KEY uploaded_file prompt) w))
     = posts (log w) /\
   llm_calls (log (exec (page env GEMINI_API_KEY uploaded_file prompt) w))
     = llm_calls (log w)).
Proof.
  assert (H1 : DEEPGRAM_API_KEY env = [] ->
    page env GEMINI_API_KEY uploaded_file prompt w =
      (Stopped,
       logged w [StError (lit "❌ Missing Deepgram API Key in .env file. Please add DEEPGRAM_API_KEY to your .env file.")])).
  { intros H. unfold page, check_keys. rewrite H. reflexivity. }
  assert (H2 : DEEPGRAM_API_KEY env <> [] -> GEMINI_API_KEY = [] ->
    page env GEMINI_API_KEY uploaded_file prompt w =
      (Stopped,
       logged w [StError (lit "❌ Missing Gemini API Key in .env file. Please add GEMINI_API_KEY to your .env file.")])).
  { intros Hd ->. unfold page, check_keys.
    destruct (DEEPGRAM_API_KEY env); [congruence | reflexivity]. }
  split; [exact H1|]. split; [exact H2|]. split.
  - intros Hd Hg. unfold page, check_keys.
    destruct (DEEPGRAM_API_KEY env); [congruence|].
    destruct GEMINI_API_KEY; [congruence|].
    cbn [nonempty negb]. unfold bind, ret.
    now destruct (run env uploaded_file prompt w).
  - intros Hmissing. unfold eval, exec.
    assert (Hstop : exists m,
      page env GEMINI_API_KEY uploaded_file prompt w = (Stopped, logged w [StError m])).
    { destruct (DEEPGRAM_API_KEY env) eqn:Hd.
      - eexists. apply H1. reflexivity.
      - destruct Hmissing as [Hm | Hm]; [discriminate|].
        eexists. apply H2; [discriminate | exact Hm]. }
    destruct Hstop as (m & ->). cbn [fst snd logged session log].
    rewrite posts_app, llm_calls_app. cbn. now rewrite !app_nil_r.
Qed.

(** X14, without the Deepgram key, with a file and a question. *)
Lemma missing_key_stops_witness :
  DEEPGRAM_API_KEY env_no_key = [] /\
  posts (log (exec (page env_no_key (lit "AIza") (Some clip)
                      (Some (lit "Who speaks?"))) chatting)) = [] /\
  session (exec (page env_no_key (lit "AIza") (Some clip)
                   (Some (lit "Who speaks?"))) chatting) = session chatting.
Proof.
  split; [reflexivity|].
  destruct (proj2 (proj2 (proj2
              (missing_key_stops env_no_key (lit "AIza") (Some clip)
                 (Some (lit "Who speaks?")) chatting))) (or_introl eq_refl))
    as (_ & Hs & Hp & _).
  split; [exact Hp | exact Hs].
Defined.

(* ================================================================== *)
(** ** The statistics of the transcript *)
(* ================================================================== *)

Lemma concat_split_from (s word : str) :
  List.concat (split_from s word) = rev word ++ filter nonspace s.
Proof.
  revert word. induction s as [|c r IH]; intros word.
  - destruct word; simpl; now rewrite ?app_nil_r.
  - cbn [split_from filter]. unfold nonspace at 1.
    destruct (isspace c); cbn [negb].
    + destruct word as [|a word'].
      * apply IH.
      * cbn [List.concat]. now rewrite IH.
    + rewrite IH. cbn [rev]. now rewrite <- app_assoc.
Qed.

Lemma split_from_words (s word : str) :
  (forall c, In c word -> isspace c = false) ->
  forall x, In x (split_from s word) ->
    x <> [] /\ forall c, In c x -> isspace c = false.
Proof.
  revert word. induction s as [|c r IH]; intros word Hword x Hx.
  - destruct word as [|a word']; [contradiction|].
    destruct Hx as [<- | []]. split.
    + intros E. apply (f_equal (@List.length _)) in E.
      rewrite length_rev in E. discriminate.
    + intros c Hc. apply Hword. now apply in_rev.
  - cbn [split_from] in Hx. destruct (isspace c) eqn:Hc.
    + destruct word as [|a word'].
      * apply (IH [] ltac:(intros ? []) x Hx).
      * destruct Hx as [<- | Hx]; [|apply (IH [] ltac:(intros ? []) x Hx)].
        split.
        -- intros E. apply (f_equal (@List.length _)) in E.
           rewrite length_rev in E. discriminate.
        -- intros c0 Hc0. apply Hword. now apply in_rev.
    + apply (IH (c :: word)); [|exact Hx].
      intros c0 [<- | Hc0]; [exact Hc | now apply Hword].
Qed.

Lemma length_concat_nonempty {A} (l : list (list A)) :
  (forall x, In x l -> x <> []) -> (List.length l <= List.length (List.concat l))%nat.
Proof.
  induction l as [|x l IH]; intros H; [simpl; lia|].
  cbn [List.concat List.length]. rewrite length_app.
  assert (Hx : x <> []) by (apply H; now left).
  assert (Hl : (List.length l <= List.length (List.concat l))%nat)
    by (apply IH; intros y Hy; apply H; now right).
  destruct x; [congruence | simpl; lia].
Qed.

Lemma filter_nonspace_nil (s : str) :
  filter nonspace s = [] <-> forallb isspace s = true.
Proof.
  induction s as [|c r IH]; [simpl; tauto|].
  cbn [filter forallb]. unfold nonspace at 1.
  destruct (isspace c); cbn [negb andb]; [exact IH|].
  split; discriminate.
Qed.

(** X15.  The words counted in the statistics are the maximal runs of
    characters that are not white space: each is non-empty and free of white
    space, and together they are the text with its white space removed.  So
    there are at most as many words as characters, none exactly when the
    text is empty once trimmed, and at least one for a stored transcript,
    which is trimmed and not empty. *)
Theorem word_count_bounds (text : str) :
  (forall word, In word (split text) ->
     word <> [] /\ forall c, In c word -> isspace c = false) /\
  List.concat (split text) = filter (fun c => negb (isspace c)) text /\
  (word_count text <= char_count text)%nat /\
  (word_count text = 0%nat <-> strip text = []) /\
  (text <> [] -> strip text = text -> (1 <= word_count text)%nat).
Proof.
  assert (Hwords : forall word, In word (split text) ->
            word <> [] /\ forall c, In c word -> isspace c = false).
  { apply split_from_words. intros c []. }
  assert (Hconcat : List.concat (split text) = filter nonspace text).
  { unfold split. now rewrite concat_split_from. }
  assert (Hzero : word_count text = 0%nat <-> strip text = []).
  { unfold word_count. split.
    - intros H. apply strip_whitespace, filter_nonspace_nil.
      rewrite <- Hconcat. destruct (split text); [reflexivity | discriminate].
    - intros H. apply strip_nil_inv, filter_nonspace_nil in H.
      rewrite <- Hconcat in H.
      destruct (split text) as [|x l] eqn:E; [reflexivity|].
      destruct (Hwords x (or_introl eq_refl)) as [Hx _].
      destruct x; [congruence | discriminate]. }
  split; [exact Hwords|]. split; [exact Hconcat|]. split; [|split].
  - unfold word_count, char_count.
    etransitivity; [apply length_concat_nonempty; intros x Hx; now apply Hwords|].
    rewrite Hconcat. apply filter_length_le.
  - exact Hzero.
  - intros Hne Hs.
    destruct (Nat.eq_dec (word_count text) 0) as [E | E]; [|lia].
    apply Hzero in E. congruence.
Qed.

(** X15, for a transcript of two words. *)
Lemma word_count_bounds_witness :
  strip (lit "hello world") = lit "hello world" /\
  (1 <= word_count (lit "hello world"))%nat.
Proof.
  assert (Hs : strip (lit "hello world") = lit "hello world")
    by (vm_compute; reflexivity).
  split; [exact Hs|].
  apply (proj2 (proj2 (proj2 (proj2 (word_count_bounds (lit "hello world")))))).
  - discriminate.
  - exact Hs.
Defined.

Example word_count_example :
  map word_count [lit "hello world"; lit "  a  b	c "; lit "   "; []]
  = [2; 3; 0; 0]%nat.
Proof. vm_compute. reflexivity. Qed.

(* ================================================================== *)
(** ** What a chat exchange shows *)
(* ================================================================== *)

Lemma chat_except_errors (env : Env) (e : PyExc) (w : World) :
  exists l m,
    chat_except env e w =
      (tt, with_history (logged w l) (pop_human (history (session w)))) /\
    errors l = [m] /\
    forall role c, In (ChatMessage role c) l -> False.
Proof.
  unfold chat_except.
  destruct (contains (lit "429") (exc_str env e)
            || contains (lit "quota") (lower (exc_str env e))).
  - eexists. eexists. split; [|split].
    + unfold bind. rewrite !emit_logged, !logged_logged. reflexivity.
    + reflexivity.
    + intros role c [H | [H | [H | []]]]; discriminate.
  - eexists. eexists. split; [|split].
    + unfold bind. rewrite !emit_logged. reflexivity.
    + reflexivity.
    + intros role c [H | []]; discriminate.
Qed.

(** X16.  A chat exchange never fails silently and never shows both a reply
    and an error: after the user's message it either shows the reply of the
    language model, with no error, and the history grows by the exchange, or
    it shows exactly one error and no reply, and the history is as
    before. *)
Theorem chat_turn_reports (env : Env) (p : str) (w : World) :
  exists l,
    log (exec (chat_turn env p) w) = log w ++ ChatMessage (lit "user") p :: l /\
    ((exists c,
        history (session (exec (chat_turn env p) w))
          = history (session w) ++ [HumanMessage p; AIMessage c] /\
        errors l = [] /\
        In (ChatMessage (lit "assistant") c) l) \/
     (history (session (exec (chat_turn env p) w)) = history (session w) /\
      (exists m, errors l = [m]) /\
      forall role c, In (ChatMessage role c) l -> False)).
Proof.
  unfold exec. rewrite chat_turn_run.
  set (h1 := history (session w) ++ [HumanMessage p]).
  assert (Hexc : forall e l1,
    errors l1 = [] -> (forall role c, In (ChatMessage role c) l1 -> False) ->
    exists l,
      log (snd (chat_except env e
                  (with_history (logged w (ChatMessage (lit "user") p :: l1)) h1)))
        = log w ++ ChatMessage (lit "user") p :: l /\
      history (session (snd (chat_except env e
                  (with_history (logged w (ChatMessage (lit "user") p :: l1)) h1))))
        = history (session w) /\
      (exists m, errors l = [m]) /\
      forall role c, In (ChatMessage role c) l -> False).
  { intros e l1 He1 Hn1.
    destruct (chat_except_errors env e
                (with_history (logged w (ChatMessage (lit "user") p :: l1)) h1))
      as (l2 & m & -> & He2 & Hn2).
    exists (l1 ++ l2). cbn [snd with_history logged session log history].
    split; [now rewrite <- app_assoc|]. split; [apply pop_human_snoc|]. split.
    - exists m. now rewrite errors_app, He1, He2.
    - intros role c Hin. apply in_app_or in Hin as [Hin | Hin]; eauto. }
  destruct (ChatGoogleGenerativeAI env) as [u|e].
  - destruct (llm_invoke env (limit_history h1)) as [c|e].
    + eexists. split; [reflexivity|]. left. exists c.
      split; [unfold h1; cbn; now rewrite <- app_assoc|].
      split; [reflexivity|]. right. now left.
    + destruct (Hexc e [LlmInvoke (limit_history h1)] eq_refl) as (l & Hl & Hh & Hm & Hn).
      { intros role c [H | []]. discriminate. }
      exists l. split; [exact Hl|]. right. auto.
  - destruct (Hexc e [] eq_refl) as (l & Hl & Hh & Hm & Hn).
    { intros role c []. }
    exists l. split; [exact Hl|]. right. auto.
Qed.
